(** * MediaObject: the client-side proxy of a server-side media object

    A shallow embedding of [lib/MediaObject.js] together with the part of
    Node's [events] module (v0.10 [EventEmitter]) the proxy is built on, and
    the properties of its lazy subscription protocol, of [invoke], of
    [release] and of construction.

    Conventions of the model:
    - JavaScript values are the inductive [value]; the closures the proxy
      creates are constructors of it that carry their captured variables.
    - Plain objects used as maps ([tokens], [_events]) are finite maps on
      strings.  The members such an object inherits from [Object.prototype]
      are not modelled: the model follows the code for keys outside
      [object_prototype_names], and the statements that depend on what such
      a key reads exclude these names.
    - Functions supplied by the application or the transport are opaque
      ([VFunction]): invoking one is recorded in the log, it returns
      [undefined], does not throw and does not re-enter the proxy.  It may
      keep a completion callback it was handed and invoke it later; such
      callbacks are collected in [pending].
    - Nested calls are bounded by a fuel argument that counts call depth
      (the analogue of the JavaScript stack).
    - The listener table is kept in insertion order, which is the order of
      [for (key in this._events)] for keys that are not array indices.
    - Not modelled: the warning [addListener] prints when an event type gets
      more listeners than [_maxListeners], domains and [once].  Where the
      model does not follow JavaScript (a bookkeeping listener called without
      a string event type, members of foreign objects, a constructor
      parameter named like a member the proxy uses) the outcome is
      [Unmodelled]. *)

From Stdlib Require Import ZArith Ascii.
From stdpp Require Import gmap strings list.

Local Open Scope string_scope.

(** ** Values *)

#[local] Unset Elimination Schemes.
Inductive value : Type :=
  | VUndefined
  | VNull
  | VBool (b : bool)
  | VNum (n : Z)
  | VStr (s : string)
  | VObject (fields : list (string * value))   (* a plain data object *)
  | VError (name msg : string)                 (* an instance of Error *)
  | VRef (o : nat)                             (* another emitter (parent, pipeline) *)
  | VThis                                      (* the proxy itself *)
  | VFunction (f : nat)                        (* an opaque function *)
  | VOnRemoveListener                          (* closure of lines 48-68 *)
  | VOnNewListener                             (* closure of lines 70-91 *)
  | VUnsubscribeCb (event : string)            (* closure of lines 61-66 *)
  | VSubscribeCb (event : string)              (* closure of lines 84-89 *)
  | VReleaseCb                                 (* closure of lines 146-154 *)
  | VInvokeCb (callback : value).              (* callback2, lines 189-194 *)
#[local] Set Elimination Schemes.

(** [typeof v === 'function'], [v instanceof Function] *)
Definition is_function (v : value) : bool :=
  match v with
  | VFunction _ | VOnRemoveListener | VOnNewListener
  | VUnsubscribeCb _ | VSubscribeCb _ | VReleaseCb | VInvokeCb _ => true
  | _ => false
  end.

(** A function that is not one of the proxy's own closures. *)
Definition is_opaque (v : value) : bool :=
  match v with VFunction _ => true | _ => false end.

(** The completion callbacks the proxy hands to the RPC gateway. *)
Definition is_rpc_callback (v : value) : bool :=
  match v with
  | VUnsubscribeCb _ | VSubscribeCb _ | VReleaseCb | VInvokeCb _ => true
  | _ => false
  end.

(** [v instanceof Error] *)
Definition is_error (v : value) : bool :=
  match v with VError _ _ => true | _ => false end.

(** ToBoolean, as used by [if(v)], [!v] and [a || b]. *)
Definition truthy (v : value) : bool :=
  match v with
  | VUndefined | VNull => false
  | VBool b => b
  | VNum n => negb (n =? 0)%Z
  | VStr s => negb (String.eqb s "")
  | _ => true
  end.

(** Identity of two function values ([===] on listeners). *)
Fixpoint same_function (a b : value) : bool :=
  match a, b with
  | VFunction f, VFunction g => Nat.eqb f g
  | VOnRemoveListener, VOnRemoveListener => true
  | VOnNewListener, VOnNewListener => true
  | VUnsubscribeCb e, VUnsubscribeCb e' => String.eqb e e'
  | VSubscribeCb e, VSubscribeCb e' => String.eqb e e'
  | VReleaseCb, VReleaseCb => true
  | VInvokeCb c, VInvokeCb c' => same_function c c'
  | _, _ => false
  end.

(** SameValue on the values that have an identity or are primitive; two
    object literals are never the same object. *)
Definition same_value (a b : value) : bool :=
  match a, b with
  | VUndefined, VUndefined | VNull, VNull | VThis, VThis => true
  | VBool x, VBool y => Bool.eqb x y
  | VNum x, VNum y => (x =? y)%Z
  | VStr x, VStr y => String.eqb x y
  | VRef x, VRef y => Nat.eqb x y
  | _, _ => same_function a b
  end.

(** [typeof v] *)
Definition typeof (v : value) : string :=
  match v with
  | VUndefined => "undefined"
  | VBool _ => "boolean"
  | VNum _ => "number"
  | VStr _ => "string"
  | VNull | VObject _ | VError _ _ | VRef _ | VThis => "object"
  | _ => "function"
  end.

(** The i-th actual argument; a missing argument reads as [undefined]. *)
Definition arg (i : nat) (args : list value) : value := nth i args VUndefined.

(** Lookup in an association list (first binding wins). *)
Fixpoint assoc {A : Type} (k : string) (l : list (string * A)) : option A :=
  match l with
  | [] => None
  | (k', a) :: l' => if String.eqb k k' then Some a else assoc k l'
  end.

(** ** Property tables *)

Record property : Type := Property {
  p_value : value;
  writable : bool;
  enumerable : bool;
  configurable : bool
}.

(** A property created by plain assignment [o.k = v]. *)
Definition assigned (v : value) : property := Property v true true true.

(** ** Observable actions *)

Inductive action : Type :=
  | Emit (type : string) (args : list value)      (* this.emit(type, args...) *)
  | Call (f : value) (args : list value)          (* an opaque function is invoked *)
  | ConsoleError (v : value)                      (* console.error(v) *)
  | ParentEmit (parent : nat) (type : string) (args : list value).

(** ** State *)

Record state : Type := State {
  own : list (string * property);        (* own properties of the proxy *)
  _events : list (string * list value);  (* EventEmitter's listener table, in key order *)
  tokens : gmap string value;            (* var tokens = {}, line 46 *)
  pending : list value;                  (* completion callbacks held by opaque functions *)
  log : list action                      (* what happened so far, oldest first *)
}.

Definition set_own (f : list (string * property) → list (string * property)) (st : state) : state :=
  State (f (own st)) (_events st) (tokens st) (pending st) (log st).
Definition set_events (ev : list (string * list value)) (st : state) : state :=
  State (own st) ev (tokens st) (pending st) (log st).
Definition set_tokens (t : gmap string value) (st : state) : state :=
  State (own st) (_events st) t (pending st) (log st).
Definition set_pending (p : list value) (st : state) : state :=
  State (own st) (_events st) (tokens st) p (log st).
Definition record (a : action) (st : state) : state :=
  State (own st) (_events st) (tokens st) (pending st) (log st ++ [a]).

(** ** Outcomes and the state monad *)

Inductive outcome (A : Type) : Type :=
  | Ok (a : A) (st : state)          (* normal completion *)
  | Throw (e : value) (st : state)   (* an exception propagates *)
  | OutOfFuel                        (* call depth exhausted *)
  | Unmodelled.                      (* behaviour outside the model *)
Arguments Ok {A} a st.
Arguments Throw {A} e st.
Arguments OutOfFuel {A}.
Arguments Unmodelled {A}.

Definition M (A : Type) : Type := state → outcome A.

Definition ret {A} (a : A) : M A := fun st => Ok a st.
Definition throw {A} (e : value) : M A := fun st => Throw e st.
Definition bind {A B} (m : M A) (k : A → M B) : M B :=
  fun st =>
    match m st with
    | Ok a st' => k a st'
    | Throw e st' => Throw e st'
    | OutOfFuel => OutOfFuel
    | Unmodelled => Unmodelled
    end.
Definition get : M state := fun st => Ok st st.
Definition modify (f : state → state) : M unit := fun st => Ok tt (f st).

Declare Scope js_scope.
Delimit Scope js_scope with js.
Notation "'let*' x ':=' m 'in' k" := (bind m (fun x => k))
  (at level 10, x name, m at level 100, k at level 200) : js_scope.
Notation "m '>>' k" := (bind m (fun _ => k))
  (at level 100, k at level 200, right associativity) : js_scope.
Local Open Scope js_scope.

Definition TypeError (msg : string) : value := VError "TypeError" msg.
Definition SyntaxError (msg : string) : value := VError "SyntaxError" msg.

(** ** Plain objects used as maps *)

(** The members every plain object inherits from [Object.prototype]
    (V8 3.14).  A read [o[k]] of a key [k] the object does not own yields
    [undefined] unless [k] is one of these names. *)
Definition object_prototype_names : list string :=
  ["constructor"; "toString"; "toLocaleString"; "valueOf"; "hasOwnProperty";
   "isPrototypeOf"; "propertyIsEnumerable"; "__defineGetter__";
   "__lookupGetter__"; "__defineSetter__"; "__lookupSetter__"; "__proto__"].

(** ** Node's EventEmitter (events.js, v0.10) *)

Module EventEmitter.

(** [this._events[type]] for a [type] outside [object_prototype_names]: an
    absent key reads as no listener.  The table of v0.10 is a plain object,
    so for a [type] in [object_prototype_names] an absent key reads as the
    inherited member instead; the statements that depend on the listeners
    of such a [type] exclude these names. *)
Definition listeners (st : state) (type : string) : list value :=
  default [] (assoc type (_events st)).

(** [EventEmitter.listenerCount(emitter, type)] *)
Definition listenerCount (st : state) (type : string) : nat :=
  length (listeners st type).

(** Store the listener array of [type]: an existing key keeps its place,
    a new key goes last, and the key is deleted when the array is empty.
    The order of the list is the order in which [for (key in this._events)]
    visits the keys as long as no key is an array index ([array_index]
    below), which V8 visits before the others; the statements about that
    order are about tables without such keys. *)
Fixpoint store (type : string) (ls : list value) (ev : list (string * list value))
    : list (string * list value) :=
  match ev with
  | [] => match ls with [] => [] | _ => [(type, ls)] end
  | (k, old) :: ev' =>
      if String.eqb type k
      then match ls with [] => ev' | _ => (k, ls) :: ev' end
      else (k, old) :: store type ls ev'
  end.

(** Remove the first occurrence of [listener]. *)
Fixpoint remove_first (listener : value) (ls : list value) : option (list value) :=
  match ls with
  | [] => None
  | l :: ls' =>
      if same_function l listener then Some ls'
      else option_map (cons l) (remove_first listener ls')
  end.

(** [removeListener] scans from the end: the last occurrence goes. *)
Definition remove_last (listener : value) (ls : list value) : option (list value) :=
  option_map (@rev value) (remove_first listener (rev ls)).

(** Call the listeners in order, each with [args]; an exception stops the
    sequence. *)
Fixpoint call_each (call : value → list value → M value)
    (ls : list value) (args : list value) : M unit :=
  match ls with
  | [] => ret tt
  | l :: ls' => call l args >> call_each call ls' args
  end.

Definition dquote : string := String "034"%char EmptyString.

(** [emit(type, args...)]: an 'error' nobody listens to is thrown; the
    listeners are those registered when the emission starts. *)
Definition emit (call : value → list value → M value)
    (type : string) (args : list value) : M bool :=
  modify (record (Emit type args)) >>
  let* st := get in
  match listeners st type with
  | [] =>
      if String.eqb type "error"
      then
        let er := arg 0 args in
        if is_error er then throw er
        else throw (TypeError ("Uncaught, unspecified " ++ dquote ++ "error" ++ dquote ++ " event."))
      else ret false
  | ls => call_each call ls args >> ret true
  end.

(** [addListener(type, listener)], alias [on]: 'newListener' is emitted
    before the listener is stored. *)
Definition on (call : value → list value → M value)
    (type : string) (listener : value) : M unit :=
  if negb (is_function listener)
  then throw (TypeError "listener must be a function")
  else
    let* st := get in
    (match listeners st "newListener" with
     | [] => ret false
     | _ => emit call "newListener" [VStr type; listener]
     end) >>
    modify (fun st => set_events (store type (listeners st type ++ [listener]) (_events st)) st).

(** [removeListener(type, listener)]: 'removeListener' is emitted after
    the listener is gone. *)
Definition removeListener (call : value → list value → M value)
    (type : string) (listener : value) : M unit :=
  if negb (is_function listener)
  then throw (TypeError "listener must be a function")
  else
    let* st := get in
    match remove_last listener (listeners st type) with
    | None => ret tt
    | Some ls' =>
        modify (fun st => set_events (store type ls' (_events st)) st) >>
        let* st := get in
        match listeners st "removeListener" with
        | [] => ret tt
        | _ => emit call "removeListener" [VStr type; listener] >> ret tt
        end
    end.

(** The [while (listeners.length)] loop of [removeAllListeners(type)]:
    last registered, first removed. *)
Fixpoint remove_each (call : value → list value → M value)
    (type : string) (ls : list value) : M unit :=
  match ls with
  | [] => ret tt
  | l :: ls' => removeListener call type l >> remove_each call type ls'
  end.

(** [removeAllListeners(type)] *)
Definition removeAllListeners_of (call : value → list value → M value)
    (type : string) : M unit :=
  let* st := get in
  match listeners st "removeListener" with
  | [] => modify (fun st => set_events (store type [] (_events st)) st)
  | _ =>
      remove_each call type (rev (listeners st type)) >>
      modify (fun st => set_events (store type [] (_events st)) st)
  end.

(** The [for (key in this._events)] loop of [removeAllListeners()]; a key
    deleted in the meantime is not visited. *)
Fixpoint remove_keys (call : value → list value → M value)
    (keys : list string) : M unit :=
  match keys with
  | [] => ret tt
  | key :: keys' =>
      (if String.eqb key "removeListener" then ret tt
       else
         let* st := get in
         match assoc key (_events st) with
         | None => ret tt
         | Some _ => removeAllListeners_of call key
         end) >>
      remove_keys call keys'
  end.

(** [removeAllListeners()] *)
Definition removeAllListeners (call : value → list value → M value) : M unit :=
  let* st := get in
  match listeners st "removeListener" with
  | [] => modify (set_events [])
  | _ =>
      remove_keys call (map fst (_events st)) >>
      removeAllListeners_of call "removeListener" >>
      modify (set_events [])
  end.

End EventEmitter.

(** ** lib/MediaObject.js *)

(** [tokens[event]] for an [event] outside [object_prototype_names]: an
    absent key reads as [undefined].  (For the other names the plain object
    of line 46 yields the inherited member; the statements that depend on
    the token of such an event type exclude them.) *)
Definition token_of (st : state) (event : string) : value :=
  default VUndefined (tokens st !! event).

(** A member read [v.name], as in [result.value]. *)
Definition get_member (v : value) (name : string) : M value :=
  match v with
  | VUndefined => throw (TypeError ("Cannot read property '" ++ name ++ "' of undefined"))
  | VNull => throw (TypeError ("Cannot read property '" ++ name ++ "' of null"))
  | VObject fields => ret (default VUndefined (assoc name fields))
  | VThis => fun st => Ok (default VUndefined (p_value <$> assoc name (own st))) st
  | VRef _ => fun _ => Unmodelled
  | _ => ret VUndefined
  end.

Section Closures.

(** [this.emit], with the function application of the enclosing call depth. *)
Variable emit : string → list value → M bool.
Variable removeAllListeners : M unit.
Variable apply : value → list value → M value.

(** Lines 48-68: the 'removeListener' listener installed by the constructor. *)
Definition onRemoveListener (event : string) : M value :=
  let* st := get in
  let count := EventEmitter.listenerCount st event in
  if Nat.eqb count 0
  then
    let token := token_of st event in
    let params := VObject [("subscription", token)] in
    emit "_rpc" [VStr "unsubscribe"; params; VUnsubscribeCb event] >>
    ret VUndefined
  else ret VUndefined.

(** Lines 61-66: completion of an unsubscribe request. *)
Definition unsubscribeCb (event : string) (error : value) : M value :=
  if truthy error
  then let* r := emit "error" [error] in ret (VBool r)
  else
    modify (fun st => set_tokens (delete event (tokens st)) st) >>
    ret VUndefined.

(** Lines 70-91: the 'newListener' listener installed by the constructor. *)
Definition onNewListener (event : string) : M value :=
  if String.eqb event "release" then ret VUndefined
  else if String.eqb event "_rpc" then ret VUndefined
  else
    let* st := get in
    let count := EventEmitter.listenerCount st event in
    if Nat.eqb count 0
    then
      let params := VObject [("type", VStr event)] in
      emit "_rpc" [VStr "subscribe"; params; VSubscribeCb event] >>
      ret VUndefined
    else ret VUndefined.

(** Lines 84-89: completion of a subscribe request. *)
Definition subscribeCb (event : string) (error token : value) : M value :=
  if truthy error
  then let* r := emit "error" [error] in ret (VBool r)
  else
    modify (fun st => set_tokens (<[event := token]> (tokens st)) st) >>
    ret VUndefined.

(** Lines 146-154: completion of the release request. *)
Definition releaseCb (error : value) : M value :=
  if truthy error
  then modify (record (ConsoleError error)) >> ret VUndefined
  else
    emit "release" [] >>
    removeAllListeners >>
    ret VUndefined.

(** Lines 189-194: [callback2], the wrapper [invoke] hands to the gateway. *)
Definition invokeCb (callback : value) (error result : value) : M value :=
  if truthy error
  then apply callback [error]
  else
    let* v := get_member result "value" in
    apply callback [VNull; v].

End Closures.

(** An opaque function runs: the call is logged and every completion
    callback among its arguments is from now on held by the outside. *)
Definition opaque_call (f : value) (args : list value) : M value :=
  modify (fun st => set_pending (pending st ++ filter (fun v => is_rpc_callback v = true) args)
                      (record (Call f args) st)) >>
  ret VUndefined.

(** Function application [f.apply(this, args)] at call depth [fuel].  The
    two listeners of the constructor take the event type as a string.
    Applying something that is not a function is a TypeError; its message
    follows V8 3.14 for a call through a variable and is not part of any
    statement below. *)
Fixpoint call (fuel : nat) (f : value) (args : list value) : M value :=
  match fuel with
  | O => fun _ => OutOfFuel
  | S fuel' =>
      let emit := EventEmitter.emit (call fuel') in
      match f with
      | VFunction _ => opaque_call f args
      | VOnRemoveListener =>
          match arg 0 args with
          | VStr event => onRemoveListener emit event
          | _ => fun _ => Unmodelled
          end
      | VOnNewListener =>
          match arg 0 args with
          | VStr event => onNewListener emit event
          | _ => fun _ => Unmodelled
          end
      | VUnsubscribeCb event => unsubscribeCb emit event (arg 0 args)
      | VSubscribeCb event => subscribeCb emit event (arg 0 args) (arg 1 args)
      | VReleaseCb =>
          releaseCb emit (EventEmitter.removeAllListeners (call fuel')) (arg 0 args)
      | VInvokeCb callback => invokeCb (call fuel') callback (arg 0 args) (arg 1 args)
      | _ => throw (TypeError (typeof f ++ " is not a function"))
      end
  end.

(** The methods of the proxy, run from the top level with [fuel] levels of
    nesting available below them. *)
Definition emit (fuel : nat) : string → list value → M bool :=
  EventEmitter.emit (call fuel).
Definition on (fuel : nat) : string → value → M unit :=
  EventEmitter.on (call fuel).
Definition removeListener (fuel : nat) : string → value → M unit :=
  EventEmitter.removeListener (call fuel).

(** Lines 142-155 *)
Definition release (fuel : nat) : M unit :=
  emit fuel "_rpc" [VStr "release"; VObject []; VReleaseCb] >> ret tt.

(** Lines 166-198.  An omitted argument is [VUndefined]. *)
Definition invoke (fuel : nat) (method params callback : value) : M unit :=
  let* pc :=
    (if is_function params
     then
       if truthy callback
       then throw (SyntaxError "Nothing can be defined after the callback")
       else ret (VNull, params)
     else ret (params, callback)) in
  let '(params, callback) := pc in
  let params2 :=
    VObject ([("operation", method)] ++
             (if truthy params then [("operationParams", params)] else [])) in
  let callback2 := if truthy callback then VInvokeCb callback else VUndefined in
  emit fuel "_rpc" [VStr "invoke"; params2; callback2] >> ret tt.

(** [Object.defineProperty(this, key, {value: v})]: a new property is
    read-only, non-enumerable and non-configurable; an existing one only has
    its value replaced, which is refused when it is neither configurable nor
    writable and the value differs. *)
Fixpoint replace_value (key : string) (v : value) (o : list (string * property))
    : list (string * property) :=
  match o with
  | [] => []
  | (k, p) :: o' =>
      if String.eqb key k
      then (k, Property v (writable p) (enumerable p) (configurable p)) :: o'
      else (k, p) :: replace_value key v o'
  end.

Definition defineProperty (key : string) (v : value) : M unit :=
  let* st := get in
  match assoc key (own st) with
  | None => modify (set_own (fun o => (o ++ [(key, Property v false false false)])%list))
  | Some p =>
      if configurable p || writable p || same_value v (p_value p)
      then modify (set_own (replace_value key v))
      else throw (TypeError ("Cannot redefine property: " ++ key))
  end.

(** The keys visited by [for (var key in params)]. *)
Definition for_in (params : value) : M (list string) :=
  match params with
  | VObject fields => ret (remove_dups (map fst fields))
  | VStr _ | VRef _ | VThis => fun _ => Unmodelled
  | _ => ret []
  end.

(** [params[key]] for a key the loop visits. *)
Definition member_of (params : value) (key : string) : value :=
  match params with
  | VObject fields => default VUndefined (assoc key fields)
  | _ => VUndefined
  end.

(** Lines 37-38 *)
Fixpoint define_params (params : value) (keys : list string) : M unit :=
  match keys with
  | [] => ret tt
  | key :: keys' =>
      defineProperty key (member_of params key) >> define_params params keys'
  end.

Section Construction.

(** The instance fields [EventEmitter.call(this)] assigns, with their
    initial values (in Node v0.10: [domain], [_events], [_maxListeners]). *)
Variable emitterOwn : list (string * value).

(** The object [new] hands to the constructor. *)
Definition blank : state := State [] [] ∅ [] [].

(** Line 129: [parent.emit('mediaObject', this)].  With a parent that has
    no [emit] this is a TypeError; its message is not modelled. *)
Definition announce (fuel : nat) (parent : value) : M unit :=
  match parent with
  | VRef p => modify (record (ParentEmit p "mediaObject" [VThis]))
  | VThis => emit fuel "mediaObject" [VThis] >> ret tt
  | _ =>
      let* f := get_member parent "emit" in
      call fuel f [VStr "mediaObject"; VThis] >> ret tt
  end.

(** A property defined from [params] under one of these names, or under the
    name of a field of the emitter, takes the place of the member the proxy
    and its emitter look up on [this]: [this.on] (lines 48, 70),
    [this.emit], [self.removeAllListeners], the methods the application
    calls, the fields of Node's emitter, [this._events] first of all, and
    the prototype chain itself. *)
Definition proxy_members : list string :=
  ["on"; "emit"; "removeListener"; "removeAllListeners"; "release"; "invoke";
   "_events"; "domain"; "_maxListeners"; "__proto__"].

(** [key] is such a name. *)
Definition shadows (key : string) : bool :=
  bool_decide (key ∈ proxy_members) || bool_decide (key ∈ map fst emitterOwn).

(** Lines 31-130: [new MediaObject(id, parent, pipeline, params)].  What
    the constructor and the methods do once a property of [params] has
    replaced a member they use is outside the model. *)
Definition MediaObject (fuel : nat) (id parent pipeline params : value) : M unit :=
  modify (fun st => set_events [] (set_own (fun _ => map (fun kv => (kv.1, assigned kv.2)) emitterOwn) st)) >>
  (let* keys := for_in params in
   if existsb shadows keys then fun _ => Unmodelled
   else define_params params keys) >>
  modify (set_tokens ∅) >>
  on fuel "removeListener" VOnRemoveListener >>
  on fuel "newListener" VOnNewListener >>
  defineProperty "id" id >>
  defineProperty "parent" parent >>
  defineProperty "pipeline" (if truthy pipeline then pipeline else VThis) >>
  announce fuel parent.

End Construction.

(** Node v0.10's [EventEmitter] constructor. *)
Definition node_emitterOwn : list (string * value) :=
  [("domain", VNull); ("_events", VObject []); ("_maxListeners", VNum 10)].

(** * Vocabulary of the statements *)

(** ** Well-formed and live proxies *)

Local Abbreviation listeners := EventEmitter.listeners.
Local Abbreviation listenerCount := EventEmitter.listenerCount.
Local Abbreviation call_each := EventEmitter.call_each.
Local Abbreviation store := EventEmitter.store.
Local Abbreviation dquote := EventEmitter.dquote.

Local Open Scope list_scope.

(** The only closures of the proxy that are ever registered as listeners are
    the two the constructor installs, each under its own event type. *)
Definition allowed (type : string) (l : value) : bool :=
  match l with
  | VFunction _ => true
  | VOnNewListener => String.eqb type "newListener"
  | VOnRemoveListener => String.eqb type "removeListener"
  | _ => false
  end.

(** All listeners stored under a key are allowed there. *)
Definition entry_ok (kv : string * list value) : bool :=
  forallb (allowed kv.1) kv.2.

(** A table as the methods leave it, before or after [release]. *)
Definition sane (st : state) : Prop :=
  NoDup (map fst (_events st)) ∧ forallb entry_ok (_events st) = true.

(** The number of non-opaque listeners of an event type. *)
Definition handlers (st : state) (type : string) : nat :=
  length (filter (fun l => is_opaque l = false) (listeners st type)).

(** A proxy that has been constructed and not released: both bookkeeping
    listeners are installed, once. *)
Definition live (st : state) : Prop :=
  sane st ∧ handlers st "newListener" = 1 ∧ handlers st "removeListener" = 1.

(** ** The effect of calls and emissions

    On a well-formed proxy a listener only appends to the log and to the
    callbacks held outside.  [out] and [emit_out] say what is appended;
    [call_out] and [emit_sane] below prove that this is what [call] and
    [emit] do. *)

(** Log entries and handed-out callbacks are appended; nothing else moves. *)
Definition grow (dl : list action) (dp : list value) (st : state) : state :=
  State (own st) (_events st) (tokens st) (pending st ++ dp) (log st ++ dl).

(** The completion callbacks among the arguments of a call. *)
Definition callbacks (args : list value) : list value :=
  filter (fun v => is_rpc_callback v = true) args.

(** An emission all of whose listeners are opaque. *)
Definition deliver (st : state) (type : string) (args : list value)
    : list action * list value :=
  let ls := listeners st type in
  (Emit type args :: map (fun l => Call l args) ls,
   flat_map (fun _ => callbacks args) ls).

(** What a registered listener appends when called with [args]. *)
Definition out (st : state) (l : value) (args : list value)
    : list action * list value :=
  match l, arg 0 args with
  | VFunction _, _ => ([Call l args], callbacks args)
  | VOnNewListener, VStr event =>
      if String.eqb event "release" || String.eqb event "_rpc"
         || negb (Nat.eqb (listenerCount st event) 0)
      then ([], [])
      else deliver st "_rpc"
             [VStr "subscribe"; VObject [("type", VStr event)]; VSubscribeCb event]
  | VOnRemoveListener, VStr event =>
      if Nat.eqb (listenerCount st event) 0
      then deliver st "_rpc"
             [VStr "unsubscribe"; VObject [("subscription", token_of st event)];
              VUnsubscribeCb event]
      else ([], [])
  | _, _ => ([], [])
  end.

(** What an emission appends. *)
Definition emit_out (st : state) (type : string) (args : list value)
    : list action * list value :=
  let ls := listeners st type in
  (Emit type args :: flat_map (fun l => (out st l args).1) ls,
   flat_map (fun l => (out st l args).2) ls).

(** The listeners of the two bookkeeping events are always called with the
    event type, a string, as first argument. *)
Definition args_ok (ls : list value) (args : list value) : Prop :=
  forallb is_opaque ls = true ∨ ∃ E, arg 0 args = VStr E.

(** What [on(type, l)] appends: the 'newListener' emission, if anybody
    listens to it. *)
Definition on_out (st : state) (type : string) (l : value) : list action * list value :=
  match listeners st "newListener" with
  | [] => ([], [])
  | _ => emit_out st "newListener" [VStr type; l]
  end.

(** What [removeListener(type, l)] appends once [l] is gone. *)
Definition removed_out (st : state) (type : string) (l : value) : list action * list value :=
  match listeners st "removeListener" with
  | [] => ([], [])
  | _ => emit_out st "removeListener" [VStr type; l]
  end.

(** [this._events[type] = ls] *)
Definition with_listeners (type : string) (ls : list value) (st : state) : state :=
  set_events (store type ls (_events st)) st.

(** ** Requests in the log *)

Definition is_rpc (a : action) : bool :=
  match a with
  | Emit type _ => String.eqb type "_rpc"
  | _ => false
  end.

(** The '_rpc' emissions among some log entries, in order. *)
Definition rpc_emissions (l : list action) : list action :=
  filter (fun a => is_rpc a = true) l.

(** The state an outcome leaves behind, when the run ended. *)
Definition final {A} (r : outcome A) : option state :=
  match r with
  | Ok _ st | Throw _ st => Some st
  | _ => None
  end.

(** ** Concrete proxies *)

Definition state_of {A} (r : outcome A) : state :=
  match r with
  | Ok _ st | Throw _ st => st
  | _ => blank
  end.

(** [new MediaObject("obj-1", parent, undefined, {collectOnUnreferenced: true})]
    with a transport listening on '_rpc'. *)
Definition example_proxy : state :=
  state_of
    ((MediaObject node_emitterOwn 2 (VStr "obj-1") (VRef 0) VUndefined
        (VObject [("collectOnUnreferenced", VBool true)]) >>
      on 2 "_rpc" (VFunction 0)) blank).

(** The same proxy with one application listener for 'Error', its
    subscribe request awaiting completion. *)
Definition example_subscribing : state :=
  state_of (on 2 "Error" (VFunction 1) example_proxy).

(** The request has been answered with the token "tok-7". *)
Definition example_subscribed : state :=
  state_of (call 2 (VSubscribeCb "Error") [VNull; VStr "tok-7"]
              (set_pending [] example_subscribing)).

(** ** Invoke, release, construction *)

(** The proxy's own state: attributes, listeners and ledger. *)
Definition unchanged (st st' : state) : Prop :=
  own st' = own st ∧ _events st' = _events st ∧ tokens st' = tokens st.

(** The '_rpc' arguments [invoke] builds (lines 179-194). *)
Definition invoke_args (method params callback : value) : list value :=
  [VStr "invoke";
   VObject ([("operation", method)] ++
            (if truthy params then [("operationParams", params)] else []));
   if truthy callback then VInvokeCb callback else VUndefined].

(** [st'] comes from the well-formed [st] by steps that touch neither the
    ledger nor the attributes and only add to the log. *)
Definition extends (st st' : state) : Prop :=
  sane st' ∧ tokens st' = tokens st ∧ own st' = own st
  ∧ pending st ⊆ pending st' ∧ ∃ d, log st' = log st ++ d.

(** A read-only, non-enumerable, non-configurable attribute. *)
Definition frozen (v : value) : property := Property v false false false.

(** The shape of the attribute table while the constructor runs: the fields
    of the emitter are still configurable, and the other attributes are
    exactly the ones defined so far, each frozen at its value. *)
Definition defined_so_far (emitterKeys : list string) (defs : list (string * value))
    (o : list (string * property)) : Prop :=
  (∀ k, k ∈ emitterKeys → ∃ p, assoc k o = Some p ∧ configurable p = true)
  ∧ (∀ k, k ∉ emitterKeys → assoc k o = frozen <$> assoc k defs).

Ltac by_decide := apply (bool_decide_unpack _); by vm_compute.

(** ** Runs of a proxy *)

(** The event types the proxy uses for itself. *)
Definition internal_events : list string :=
  ["release"; "_rpc"; "newListener"; "removeListener"].

(** The ledger has an entry for [E] exactly when [E] has a listener. *)
Definition ledger_matches (st : state) (E : string) : Prop :=
  is_Some (tokens st !! E) ↔ 0 < listenerCount st E.

(** A subscribe or unsubscribe request is awaiting its completion. *)
Definition is_subscription_callback (v : value) : bool :=
  match v with
  | VSubscribeCb _ | VUnsubscribeCb _ => true
  | _ => false
  end.

(** No subscribe or unsubscribe request is pending. *)
Definition quiescent (st : state) : Prop :=
  forallb (fun cb => negb (is_subscription_callback cb)) (pending st) = true.

(** What the application and the gateway can do with a proxy: add and
    remove listeners, invoke, release, and complete a request whose
    callback the gateway holds. *)
Inductive step (fuel : nat) (st st' : state) : Prop :=
  | step_on (type : string) (f : nat) :
      final (on fuel type (VFunction f) st) = Some st' → step fuel st st'
  | step_removeListener (type : string) (f : nat) :
      final (removeListener fuel type (VFunction f) st) = Some st' → step fuel st st'
  | step_invoke (method params callback : value) :
      final (invoke fuel method params callback st) = Some st' → step fuel st st'
  | step_release :
      final (release fuel st) = Some st' → step fuel st st'
  | step_complete (i : nat) (cb error result : value) :
      pending st !! i = Some cb →
      final (call fuel cb [error; result] (set_pending (delete i (pending st)) st))
        = Some st' →
      step fuel st st'.

(** A proxy fresh from its constructor, created by an emitter. *)
Definition constructed (fuel : nat) (st : state) : Prop :=
  ∃ id parent pipeline params,
    MediaObject node_emitterOwn fuel id (VRef parent) pipeline params blank = Ok tt st.

(** The states a constructed proxy can get into. *)
Definition reachable (fuel : nat) (st : state) : Prop :=
  ∃ st0, constructed fuel st0 ∧ rtc (step fuel) st0 st.

(** The gateway answers at once and successfully: if the operation that led
    from [st] to [st1] handed it a callback, that callback is completed
    without error before anything else happens. *)
Definition answered (fuel : nat) (st st1 st2 : state) : Prop :=
  (pending st1 = pending st ∧ st2 = st1)
  ∨ (∃ cb error result,
       pending st1 = pending st ++ [cb] ∧ truthy error = false
       ∧ call fuel cb [error; result] (set_pending (pending st) st1) = Ok VUndefined st2).

(** What the application can pass as the callback of [invoke]: one of its
    own functions, or something that is not a function. *)
Definition external (v : value) : bool :=
  is_opaque v || negb (is_function v).

(** The steps of a run in which every listener change settles: a listener
    is added or removed, for any event type but '_rpc' (the gateway stays as
    it is), and the request this issued, if any, is answered; [invoke] and
    [release] are called; the gateway completes an invoke request, or a
    release request with an error. *)
Inductive settled_step (fuel : nat) (st st2 : state) : Prop :=
  | settled_on (E : string) (f : nat) (st1 : state) :
      E ≠ "_rpc" → E ∉ object_prototype_names →
      on fuel E (VFunction f) st = Ok tt st1 →
      answered fuel st st1 st2 →
      settled_step fuel st st2
  | settled_removeListener (E : string) (f : nat) (st1 : state) :
      E ≠ "_rpc" → E ∉ object_prototype_names →
      removeListener fuel E (VFunction f) st = Ok tt st1 →
      answered fuel st st1 st2 →
      settled_step fuel st st2
  | settled_invoke (method params callback : value) :
      final (invoke fuel method params callback st) = Some st2 →
      settled_step fuel st st2
  | settled_invoke_completed (i : nat) (callback error result : value) :
      pending st !! i = Some (VInvokeCb callback) →
      external callback = true →
      final (call fuel (VInvokeCb callback) [error; result]
               (set_pending (delete i (pending st)) st)) = Some st2 →
      settled_step fuel st st2
  | settled_release :
      final (release fuel st) = Some st2 →
      settled_step fuel st st2
  | settled_release_failed (i : nat) (error result : value) :
      pending st !! i = Some VReleaseCb →
      truthy error = true →
      final (call fuel VReleaseCb [error; result]
               (set_pending (delete i (pending st)) st)) = Some st2 →
      settled_step fuel st st2.

(** A proxy fresh from its constructor to which the gateway has attached
    its one '_rpc' listener. *)
Definition started (fuel : nat) (st : state) : Prop :=
  ∃ st0 t, constructed fuel st0 ∧ on fuel "_rpc" (VFunction t) st0 = Ok tt st.

(** The states of runs in which every listener change settles before the
    next step. *)
Inductive settled (fuel : nat) : state → Prop :=
  | settled_start st : started fuel st → settled fuel st
  | settled_next st st' : settled fuel st → settled_step fuel st st' → settled fuel st'.

(** [new MediaObject(...)], the gateway attached, and one listener for
    'release'. *)
Definition example_release_listener : state :=
  state_of (on 2 "release" (VFunction 1) example_proxy).

(** The subscribe request for 'Error' fails. *)
Definition example_failed_subscribe : state :=
  state_of (call 2 (VSubscribeCb "Error") [VError "Error" "timeout"; VUndefined]
              (set_pending [] example_subscribing)).

(** The listener for 'Error' is removed before its subscribe request is
    answered; the unsubscribe request is answered first, the subscribe
    request after it. *)
Definition example_overlapping : state :=
  let st1 := state_of (removeListener 2 "Error" (VFunction 1) example_subscribing) in
  let st2 := state_of (call 2 (VUnsubscribeCb "Error") [VNull; VUndefined]
                         (set_pending [VSubscribeCb "Error"] st1)) in
  state_of (call 2 (VSubscribeCb "Error") [VNull; VStr "tok-7"] (set_pending [] st2)).


(** What holds between two steps of such a run. *)
Definition settled_inv (st : state) : Prop :=
  live st ∧ (∃ t, listeners st "_rpc" = [VFunction t])
  ∧ ∀ E, E ∉ internal_events → ledger_matches st E.

(** ** Further vocabulary *)

(** [undefined], [null], booleans, numbers and strings. *)
Definition is_primitive (v : value) : bool :=
  match v with
  | VUndefined | VNull | VBool _ | VNum _ | VStr _ => true
  | _ => false
  end.

(** The unsubscribe request of lines 54-66 for [E], with the token the
    ledger of [st] holds for it. *)
Definition unsubscribe_request (st : state) (E : string) : action :=
  Emit "_rpc" [VStr "unsubscribe"; VObject [("subscription", token_of st E)];
               VUnsubscribeCb E].

(** [E] has listeners and is not 'removeListener'. *)
Definition loses_listeners (st : state) (E : string) : bool :=
  match listeners st E with
  | [] => false
  | _ => negb (String.eqb E "removeListener")
  end.

(** The event types whose listeners [removeAllListeners()] removes while the
    'removeListener' listeners are still there, in the order of the table. *)
Definition released_keys (st : state) : list string :=
  filter (fun E => loses_listeners st E = true) (map fst (_events st)).

(** What one pass over the listeners of [E] leaves behind. *)
Definition emptied (E : string) (st st' : state) : Prop :=
  sane st' ∧ tokens st' = tokens st
  ∧ listeners st' E = []
  ∧ (∀ E', E ≠ E' → listeners st' E' = listeners st E').

(** The keys of the table that come before [stop]. *)
Fixpoint keys_before (stop : string) (keys : list string) : list string :=
  match keys with
  | [] => []
  | k :: keys' => if String.eqb k stop then [] else k :: keys_before stop keys'
  end.

(** The completion callback of an unsubscribe request for [E], once for
    each of the given '_rpc' listeners. *)
Definition unsubscribe_callbacks (gateway : list value) (E : string) : list value :=
  map (fun _ => VUnsubscribeCb E) gateway.

(** A decimal numeral without leading zero.  Among these are the keys V8
    treats as array indices, which [for (key in o)] visits before the other
    keys, in numeric order. *)
Definition is_digit (c : ascii) : bool :=
  Nat.leb 48 (nat_of_ascii c) && Nat.leb (nat_of_ascii c) 57.

Fixpoint all_digits (k : string) : bool :=
  match k with
  | EmptyString => true
  | String c rest => is_digit c && all_digits rest
  end.

Definition array_index (k : string) : bool :=
  match k with
  | EmptyString => false
  | String c rest =>
      all_digits k && (negb (Ascii.eqb c "0"%char) || String.eqb rest "")
  end.

(** A key for which the listener table of the model is the table of the
    emitter: not the name of a member of [Object.prototype], and visited by
    [for (key in this._events)] in insertion order. *)
Definition plain_key (k : string) : bool :=
  negb (bool_decide (k ∈ object_prototype_names)) && negb (array_index k).

(** All event types that have listeners are such keys. *)
Definition plain_table (st : state) : Prop :=
  forallb plain_key (map fst (_events st)) = true.

(** * Lemmas and theorems *)

(** ** The listener table *)

Section Table.

Lemma assoc_store_ne {E E' : string} {ls ev} :
  E ≠ E' → assoc E' (store E ls ev) = assoc E' ev.
Proof.
  intros Hne. induction ev as [|[k old] ev IH]; simpl.
  - destruct ls; simpl; [done|].
    destruct (String.eqb_spec E' E); congruence.
  - destruct (String.eqb_spec E k) as [->|Hk].
    + destruct (String.eqb_spec E' k); [congruence|].
      destruct ls; simpl; [done|].
      destruct (String.eqb_spec E' k); congruence.
    + simpl. rewrite IH. done.
Qed.

Lemma assoc_None_notin {A} (k : string) (l : list (string * A)) :
  k ∉ map fst l → assoc k l = None.
Proof.
  induction l as [|[k' a] l IH]; simpl; [done|].
  intros Hn. destruct (String.eqb_spec k k') as [->|_].
  - exfalso. apply Hn. left.
  - apply IH. intros Hin. apply Hn. by right.
Qed.

Lemma assoc_store_eq (E : string) ls ev :
  NoDup (map fst ev) → default [] (assoc E (store E ls ev)) = ls.
Proof.
  induction ev as [|[k old] ev IH]; simpl; intros Hnd.
  - destruct ls; simpl; [done|]. by rewrite String.eqb_refl.
  - apply NoDup_cons in Hnd as [Hk Hnd].
    destruct (String.eqb_spec E k) as [->|Hne].
    + destruct ls; simpl.
      * by rewrite assoc_None_notin.
      * by rewrite String.eqb_refl.
    + simpl. destruct (String.eqb_spec E k); [done|]. by apply IH.
Qed.

Lemma store_keys (E : string) ls ev k :
  k ∈ map fst (store E ls ev) → k = E ∨ k ∈ map fst ev.
Proof.
  induction ev as [|[k' old] ev IH]; simpl.
  - destruct ls; simpl; [by right|]. rewrite list_elem_of_singleton. by left.
  - destruct (String.eqb_spec E k') as [->|Hne].
    + destruct ls; simpl; rewrite ?elem_of_cons; intros; right;
        rewrite ?elem_of_cons; tauto.
    + simpl. rewrite !elem_of_cons. intros [->|Hin]; [right; by left|].
      destruct (IH Hin); [by left|right; by right].
Qed.

Lemma NoDup_store (E : string) ls ev :
  NoDup (map fst ev) → NoDup (map fst (store E ls ev)).
Proof.
  induction ev as [|[k old] ev IH]; simpl; intros Hnd.
  - destruct ls; simpl; [constructor|]. apply NoDup_singleton.
  - apply NoDup_cons in Hnd as [Hk Hnd].
    destruct (String.eqb_spec E k) as [->|Hne].
    + destruct ls; simpl; [done|]. by apply NoDup_cons.
    + simpl. apply NoDup_cons. split; [|by apply IH].
      intros Hin. apply store_keys in Hin as [->|Hin]; done.
Qed.

Lemma forallb_store (P : string * list value → bool) (E : string) ls ev :
  forallb P ev = true → P (E, ls) = true → forallb P (store E ls ev) = true.
Proof.
  intros Hev HP. induction ev as [|[k old] ev IH]; simpl in *.
  - destruct ls; simpl; [done|]. by rewrite HP.
  - apply andb_true_iff in Hev as [Hk Hev].
    destruct (String.eqb_spec E k) as [->|Hne].
    + destruct ls; simpl; [done|]. by rewrite HP, Hev.
    + simpl. by rewrite Hk, IH.
Qed.

Lemma forallb_assoc (P : string * list value → bool) (E : string) ls ev :
  forallb P ev = true → assoc E ev = Some ls → P (E, ls) = true.
Proof.
  induction ev as [|[k old] ev IH]; simpl; [done|].
  intros [Hk Hev]%andb_true_iff.
  destruct (String.eqb_spec E k) as [->|Hne]; [|by apply IH].
  by intros [= <-].
Qed.

End Table.

(** ** The effect of a call on a well-formed proxy *)

Section Effects.

Lemma grow_nil st : grow [] [] st = st.
Proof. destruct st. unfold grow. simpl. by rewrite !app_nil_r. Qed.

Lemma grow_grow d1 p1 d2 p2 st :
  grow d2 p2 (grow d1 p1 st) = grow (d1 ++ d2) (p1 ++ p2) st.
Proof. unfold grow. simpl. by rewrite !app_assoc. Qed.

Lemma record_grow a st : record a st = grow [a] [] st.
Proof. unfold record, grow. by rewrite app_nil_r. Qed.

Lemma call_S fuel f args :
  call (S fuel) f args =
  match f with
  | VFunction _ => opaque_call f args
  | VOnRemoveListener =>
      match arg 0 args with
      | VStr event => onRemoveListener (EventEmitter.emit (call fuel)) event
      | _ => fun _ => Unmodelled
      end
  | VOnNewListener =>
      match arg 0 args with
      | VStr event => onNewListener (EventEmitter.emit (call fuel)) event
      | _ => fun _ => Unmodelled
      end
  | VUnsubscribeCb event => unsubscribeCb (EventEmitter.emit (call fuel)) event (arg 0 args)
  | VSubscribeCb event =>
      subscribeCb (EventEmitter.emit (call fuel)) event (arg 0 args) (arg 1 args)
  | VReleaseCb =>
      releaseCb (EventEmitter.emit (call fuel))
        (EventEmitter.removeAllListeners (call fuel)) (arg 0 args)
  | VInvokeCb callback => invokeCb (call fuel) callback (arg 0 args) (arg 1 args)
  | _ => throw (TypeError (typeof f ++ " is not a function"))
  end.
Proof. reflexivity. Qed.

Lemma call_opaque fuel f args st :
  call (S fuel) (VFunction f) args st =
  Ok VUndefined (grow [Call (VFunction f) args] (callbacks args) st).
Proof. reflexivity. Qed.

Lemma call_each_opaque fuel ls args d p st :
  forallb is_opaque ls = true →
  call_each (call (S fuel)) ls args (grow d p st) =
  Ok tt (grow (d ++ map (fun l => Call l args) ls)
              (p ++ flat_map (fun _ => callbacks args) ls) st).
Proof.
  revert d p. induction ls as [|l ls IH]; intros d p Hop.
  - simpl. by rewrite !app_nil_r.
  - simpl in Hop. apply andb_true_iff in Hop as [Hl Hls].
    destruct l; try discriminate.
    cbn [call_each]. unfold bind at 1. rewrite call_opaque, grow_grow.
    rewrite IH by done. simpl. by rewrite <- !app_assoc.
Qed.

(** An emission to opaque listeners only. *)
Lemma emit_deliver fuel type args st :
  forallb is_opaque (listeners st type) = true →
  (type = "error" → listeners st type ≠ []) →
  EventEmitter.emit (call (S fuel)) type args st =
  Ok (if listeners st type is [] then false else true)
     (grow (deliver st type args).1 (deliver st type args).2 st).
Proof.
  intros Hop Herr. unfold EventEmitter.emit, deliver.
  unfold bind at 1. unfold modify. rewrite record_grow.
  unfold bind at 1. unfold get.
  change (listeners (grow [Emit type args] [] st) type) with (listeners st type).
  destruct (listeners st type) as [|l ls] eqn:Hls.
  - destruct (String.eqb_spec type "error") as [->|_].
    + by destruct Herr.
    + reflexivity.
  - unfold bind. rewrite call_each_opaque by done. reflexivity.
Qed.

End Effects.

Section Sane.

Lemma sane_allowed st type :
  sane st → forallb (allowed type) (listeners st type) = true.
Proof.
  intros [_ Hok]. unfold listeners.
  destruct (assoc type (_events st)) as [ls|] eqn:Hls; [|done].
  apply (forallb_assoc entry_ok _ _ _ Hok Hls).
Qed.

Lemma allowed_opaque type ls :
  type ≠ "newListener" → type ≠ "removeListener" →
  forallb (allowed type) ls = true → forallb is_opaque ls = true.
Proof.
  intros Hn Hr. induction ls as [|l ls IH]; simpl; [done|].
  intros [Hl Hls]%andb_true_iff. rewrite IH by done.
  destruct l; simpl in *; try done.
  - by apply String.eqb_eq in Hl.
  - by apply String.eqb_eq in Hl.
Qed.

Lemma sane_opaque st type :
  sane st → type ≠ "newListener" → type ≠ "removeListener" →
  forallb is_opaque (listeners st type) = true.
Proof. intros Hs Hn Hr. eapply allowed_opaque; eauto using sane_allowed. Qed.

Lemma sane_rpc st : sane st → forallb is_opaque (listeners st "_rpc") = true.
Proof. intros Hs. by apply sane_opaque. Qed.

Lemma sane_grow d p st : sane st → sane (grow d p st).
Proof. done. Qed.

(** A listener the table allows, called two levels above the bottom. *)
Lemma call_out fuel st type l args :
  sane st → allowed type l = true → args_ok [l] args →
  call (S (S fuel)) l args st =
  Ok VUndefined (grow (out st l args).1 (out st l args).2 st).
Proof.
  intros Hs Hal Hargs.
  destruct l; try discriminate.
  - apply call_opaque.
  - destruct Hargs as [?|[E HE]]; [discriminate|].
    rewrite call_S. unfold out. rewrite HE.
    unfold onRemoveListener. unfold bind at 1. unfold get.
    destruct (Nat.eqb (listenerCount st E) 0); [|by rewrite grow_nil].
    unfold bind. rewrite emit_deliver; [done|by apply sane_rpc|done].
  - destruct Hargs as [?|[E HE]]; [discriminate|].
    rewrite call_S. unfold out. rewrite HE.
    unfold onNewListener.
    destruct (String.eqb E "release"); [by rewrite grow_nil|].
    destruct (String.eqb E "_rpc"); [by rewrite grow_nil|].
    unfold bind at 1. unfold get. simpl orb.
    destruct (Nat.eqb (listenerCount st E) 0); simpl negb; cbv iota;
      [|by rewrite grow_nil].
    unfold bind. rewrite emit_deliver; [done|by apply sane_rpc|done].
Qed.

Lemma args_ok_cons l ls args :
  args_ok (l :: ls) args → args_ok [l] args ∧ args_ok ls args.
Proof.
  intros [H|H]; [|split; by right].
  simpl in H. apply andb_true_iff in H as [Hl Hls].
  split; left; simpl; by rewrite ?Hl.
Qed.

Lemma call_each_sane fuel st type ls args d p :
  sane st → forallb (allowed type) ls = true → args_ok ls args →
  call_each (call (S (S fuel))) ls args (grow d p st) =
  Ok tt (grow (d ++ flat_map (fun l => (out st l args).1) ls)
              (p ++ flat_map (fun l => (out st l args).2) ls) st).
Proof.
  intros Hs. revert d p. induction ls as [|l ls IH]; intros d p Hal Hargs.
  - simpl. by rewrite !app_nil_r.
  - simpl in Hal. apply andb_true_iff in Hal as [Hl Hls].
    apply args_ok_cons in Hargs as [Hargl Hargs].
    cbn [call_each]. unfold bind at 1.
    rewrite (call_out fuel (grow d p st) type l args) by done.
    change (out (grow d p st) l args) with (out st l args).
    rewrite grow_grow, IH by done. simpl. by rewrite <- !app_assoc.
Qed.

(** An emission on a well-formed proxy. *)
Lemma emit_sane fuel st type args :
  sane st → args_ok (listeners st type) args →
  (type = "error" → listeners st type ≠ []) →
  emit (S (S fuel)) type args st =
  Ok (if listeners st type is [] then false else true)
     (grow (emit_out st type args).1 (emit_out st type args).2 st).
Proof.
  intros Hs Hargs Herr. unfold emit, EventEmitter.emit, emit_out.
  unfold bind at 1. unfold modify. rewrite record_grow.
  unfold bind at 1. unfold get.
  change (listeners (grow [Emit type args] [] st) type) with (listeners st type).
  pose proof (sane_allowed st type Hs) as Hal.
  destruct (listeners st type) as [|l ls] eqn:Hls.
  - destruct (String.eqb_spec type "error") as [->|_].
    + by destruct Herr.
    + reflexivity.
  - unfold bind. rewrite (call_each_sane fuel st type) by done. reflexivity.
Qed.

(** An 'error' nobody listens to is thrown at the emitter. *)
Lemma emit_error_unheard call args st :
  listeners st "error" = [] →
  EventEmitter.emit call "error" args st =
  Throw (if is_error (arg 0 args) then arg 0 args
         else TypeError ("Uncaught, unspecified " ++ dquote ++ "error" ++ dquote ++ " event.")%string)
        (record (Emit "error" args) st).
Proof.
  intros Hls. unfold EventEmitter.emit. unfold bind at 1. unfold modify.
  unfold bind at 1. unfold get.
  change (listeners (record (Emit "error" args) st) "error") with (listeners st "error").
  rewrite Hls. simpl. by destruct (is_error (arg 0 args)).
Qed.

End Sane.

(** ** Adding and removing listeners on a well-formed proxy *)

Section Listeners.

Lemma listeners_with_eq type ls st :
  sane st → listeners (with_listeners type ls st) type = ls.
Proof. intros [Hnd _]. by apply assoc_store_eq. Qed.

Lemma listeners_with_ne type type' ls st :
  type ≠ type' → listeners (with_listeners type ls st) type' = listeners st type'.
Proof. intros Hne. unfold listeners. simpl. by rewrite assoc_store_ne. Qed.

Lemma sane_with type ls st :
  sane st → forallb (allowed type) ls = true → sane (with_listeners type ls st).
Proof.
  intros [Hnd Hok] Hls. split; simpl.
  - by apply NoDup_store.
  - by apply forallb_store.
Qed.

Lemma with_grow type ls d p st :
  with_listeners type ls (grow d p st) = grow d p (with_listeners type ls st).
Proof. reflexivity. Qed.

Lemma forallb_remove_first (P : value → bool) l ls ls' :
  forallb P ls = true → EventEmitter.remove_first l ls = Some ls' →
  forallb P ls' = true.
Proof.
  revert ls'. induction ls as [|x ls IH]; simpl; intros ls'; [done|].
  intros [Hx Hls]%andb_true_iff.
  destruct (same_function x l); [by intros [= <-]|].
  destruct (EventEmitter.remove_first l ls) as [r|]; simpl; [|done].
  intros [= <-]. simpl. by rewrite Hx, IH.
Qed.

Lemma forallb_rev (P : value → bool) ls :
  forallb P (rev ls) = forallb P ls.
Proof.
  induction ls as [|x ls IH]; simpl; [done|].
  rewrite forallb_app, IH. simpl. rewrite andb_true_r. apply andb_comm.
Qed.

Lemma forallb_remove_last (P : value → bool) l ls ls' :
  forallb P ls = true → EventEmitter.remove_last l ls = Some ls' →
  forallb P ls' = true.
Proof.
  unfold EventEmitter.remove_last. intros Hls.
  destruct (EventEmitter.remove_first l (rev ls)) as [r|] eqn:Hr; simpl; [|done].
  intros [= <-]. rewrite forallb_rev.
  eapply forallb_remove_first; [|done]. by rewrite forallb_rev.
Qed.

(** [on(type, f)] with an opaque [f]. *)
Lemma on_sane fuel st type f :
  sane st →
  on (S (S fuel)) type (VFunction f) st =
  Ok tt (with_listeners type (listeners st type ++ [VFunction f])
           (grow (on_out st type (VFunction f)).1 (on_out st type (VFunction f)).2 st)).
Proof.
  intros Hs. unfold on, EventEmitter.on, on_out. cbn [negb is_function].
  unfold bind at 1. unfold get. unfold bind at 1.
  pose proof (sane_allowed st "newListener" Hs) as Hal.
  destruct (listeners st "newListener") as [|h hs] eqn:Hnew.
  - unfold ret, modify. cbn [fst snd]. by rewrite grow_nil.
  - pose proof (emit_sane fuel st "newListener" [VStr type; VFunction f] Hs) as He.
    unfold emit in He. rewrite He; [|right; by eexists|done].
    reflexivity.
Qed.

(** [removeListener(type, l)] with a function [l] that is registered. *)
Lemma removeListener_sane fuel st type l ls' :
  sane st → is_function l = true →
  EventEmitter.remove_last l (listeners st type) = Some ls' →
  let st1 := with_listeners type ls' st in
  removeListener (S (S fuel)) type l st =
  Ok tt (grow (removed_out st1 type l).1 (removed_out st1 type l).2 st1).
Proof.
  intros Hs Hfn Hrm st1. unfold removeListener, EventEmitter.removeListener, removed_out.
  rewrite Hfn. cbn [negb]. unfold bind at 1. unfold get. rewrite Hrm.
  unfold bind at 1. unfold modify. fold (with_listeners type ls' st). fold st1.
  unfold bind at 1.
  assert (Hs1 : sane st1).
  { apply sane_with; [done|].
    eapply forallb_remove_last; [|done]. by apply sane_allowed. }
  destruct (listeners st1 "removeListener") as [|h hs] eqn:Hrem.
  - unfold ret. by rewrite grow_nil.
  - pose proof (emit_sane fuel st1 "removeListener" [VStr type; l] Hs1) as He.
    unfold emit in He. unfold bind. rewrite He; [|right; by eexists|done].
    reflexivity.
Qed.

(** [removeListener(type, l)] with a function [l] that is not registered. *)
Lemma removeListener_absent fuel st type l :
  is_function l = true →
  EventEmitter.remove_last l (listeners st type) = None →
  removeListener fuel type l st = Ok tt st.
Proof.
  intros Hfn Hrm. unfold removeListener, EventEmitter.removeListener.
  rewrite Hfn. cbn [negb]. unfold bind, get. by rewrite Hrm.
Qed.

End Listeners.

(** ** RPC requests in the log *)

Section Requests.

Lemma rpc_app l1 l2 : rpc_emissions (l1 ++ l2) = rpc_emissions l1 ++ rpc_emissions l2.
Proof. apply filter_app. Qed.

Lemma rpc_calls args ls : rpc_emissions (map (fun l => Call l args) ls) = [].
Proof. induction ls as [|l ls IH]; [done|]. simpl. unfold rpc_emissions in *.
  rewrite filter_cons_False; [done|]. simpl. done. Qed.

Lemma rpc_deliver st args :
  rpc_emissions (deliver st "_rpc" args).1 = [Emit "_rpc" args].
Proof.
  unfold deliver. cbn [fst]. unfold rpc_emissions.
  rewrite filter_cons_True by done. f_equal. apply rpc_calls.
Qed.

Lemma rpc_flat_none st args ls :
  (∀ l, l ∈ ls → rpc_emissions (out st l args).1 = []) →
  rpc_emissions (flat_map (fun l => (out st l args).1) ls) = [].
Proof.
  induction ls as [|l ls IH]; intros H; [done|].
  simpl. rewrite rpc_app, H, IH; [done| |left].
  intros l' Hl'. apply H. by right.
Qed.

Lemma rpc_out_opaque st l args :
  is_opaque l = true → rpc_emissions (out st l args).1 = [].
Proof. destruct l; try discriminate. done. Qed.

Lemma filter_opaque_nil (ls : list value) :
  filter (fun l => is_opaque l = false) ls = [] → forallb is_opaque ls = true.
Proof.
  induction ls as [|l ls IH]; [done|]. rewrite filter_cons.
  destruct (decide (is_opaque l = false)) as [Hl|Hl]; [done|].
  intros Hf. simpl. rewrite IH by done.
  by destruct (is_opaque l).
Qed.

(** With a single bookkeeping listener [h] among opaque ones, the requests
    of an emission are those of [h]. *)
Lemma rpc_flat_one st args h ls :
  (∀ l, l ∈ ls → is_opaque l = false → l = h) →
  length (filter (fun l => is_opaque l = false) ls) = 1 →
  rpc_emissions (flat_map (fun l => (out st l args).1) ls) =
  rpc_emissions (out st h args).1.
Proof.
  induction ls as [|l ls IH]; intros Hh Hlen; [done|].
  simpl. rewrite rpc_app. rewrite filter_cons in Hlen.
  destruct (decide (is_opaque l = false)) as [Hl|Hl].
  - rewrite (Hh l) by (done || left). simpl in Hlen.
    rewrite rpc_flat_none; [by rewrite app_nil_r|].
    intros l' Hl'. apply rpc_out_opaque.
    assert (Hnil : filter (fun l => is_opaque l = false) ls = []).
    { apply length_zero_iff_nil. lia. }
    apply filter_opaque_nil in Hnil.
    rewrite forallb_forall in Hnil. apply Hnil. by apply list_elem_of_In.
  - rewrite rpc_out_opaque by (by destruct (is_opaque l)).
    apply IH; [|done]. intros l' Hl'. apply Hh. by right.
Qed.

Lemma allowed_new l :
  allowed "newListener" l = true → is_opaque l = false → l = VOnNewListener.
Proof. by destruct l. Qed.

Lemma allowed_removed l :
  allowed "removeListener" l = true → is_opaque l = false → l = VOnRemoveListener.
Proof. by destruct l. Qed.

Lemma live_sane st : live st → sane st.
Proof. by intros [? _]. Qed.

Lemma live_new st : live st → listeners st "newListener" ≠ [].
Proof. intros (_ & Hn & _) Hnil. unfold handlers in Hn. by rewrite Hnil in Hn. Qed.

Lemma live_removed st : live st → listeners st "removeListener" ≠ [].
Proof. intros (_ & _ & Hr) Hnil. unfold handlers in Hr. by rewrite Hnil in Hr. Qed.

(** The requests [on(type, l)] issues on a live proxy are those of the
    'newListener' listener of the constructor. *)
Lemma rpc_on_out st type l :
  live st →
  rpc_emissions (on_out st type l).1 =
  rpc_emissions (out st VOnNewListener [VStr type; l]).1.
Proof.
  intros Hlive. pose proof (live_new st Hlive) as Hne.
  destruct Hlive as (Hs & Hn & _). unfold on_out.
  destruct (listeners st "newListener") as [|h hs] eqn:Hls; [done|].
  unfold emit_out. rewrite Hls. cbn [fst]. unfold rpc_emissions at 1.
  rewrite filter_cons_False by (simpl; done).
  apply rpc_flat_one.
  - intros x Hx. apply allowed_new.
    pose proof (sane_allowed st "newListener" Hs) as Hal. rewrite Hls in Hal.
    rewrite forallb_forall in Hal. apply Hal. by apply list_elem_of_In.
  - unfold handlers in Hn. by rewrite Hls in Hn.
Qed.

End Requests.

(** ** Listener-count transitions *)

Section Transitions.

Lemma same_function_refl f : same_function (VFunction f) (VFunction f) = true.
Proof. apply Nat.eqb_refl. Qed.

Lemma remove_first_length l ls ls' :
  EventEmitter.remove_first l ls = Some ls' → length ls = S (length ls').
Proof.
  revert ls'. induction ls as [|x ls IH]; simpl; intros ls'; [done|].
  destruct (same_function x l); [by intros [= <-]|].
  destruct (EventEmitter.remove_first l ls) as [r|]; simpl; [|done].
  intros [= <-]. simpl. f_equal. by apply IH.
Qed.

Lemma remove_last_length l ls ls' :
  EventEmitter.remove_last l ls = Some ls' → length ls = S (length ls').
Proof.
  unfold EventEmitter.remove_last.
  destruct (EventEmitter.remove_first l (rev ls)) as [r|] eqn:Hr; simpl; [|done].
  intros [= <-]. apply remove_first_length in Hr.
  rewrite length_rev in *. done.
Qed.

Lemma remove_last_single f :
  EventEmitter.remove_last (VFunction f) [VFunction f] = Some [].
Proof.
  unfold EventEmitter.remove_last. simpl. by rewrite Nat.eqb_refl.
Qed.

(** Adding a listener to a live proxy. *)
Lemma on_live fuel st E f :
  live st →
  ∃ st', on (S (S fuel)) E (VFunction f) st = Ok tt st'
    ∧ listeners st' E = listeners st E ++ [VFunction f]
    ∧ (∀ E', E ≠ E' → listeners st' E' = listeners st E')
    ∧ tokens st' = tokens st
    ∧ own st' = own st
    ∧ pending st' = pending st ++ (on_out st E (VFunction f)).2
    ∧ rpc_emissions (log st') =
      rpc_emissions (log st) ++ rpc_emissions (out st VOnNewListener [VStr E; VFunction f]).1.
Proof.
  intros Hlive. pose proof (live_sane st Hlive) as Hs.
  eexists. split; [by apply on_sane|].
  split; [by rewrite listeners_with_eq|].
  split; [intros E' HE'; by rewrite listeners_with_ne|].
  do 3 (split; [done|]).
  cbn [log with_listeners set_events grow]. by rewrite rpc_app, rpc_on_out.
Qed.

(** Removing a registered listener from a well-formed proxy. *)
Lemma removeListener_found fuel st E f ls' :
  sane st →
  EventEmitter.remove_last (VFunction f) (listeners st E) = Some ls' →
  let st1 := with_listeners E ls' st in
  ∃ st', removeListener (S (S fuel)) E (VFunction f) st = Ok tt st'
    ∧ _events st' = _events st1
    ∧ tokens st' = tokens st
    ∧ own st' = own st
    ∧ pending st' = pending st ++ (removed_out st1 E (VFunction f)).2
    ∧ log st' = log st ++ (removed_out st1 E (VFunction f)).1.
Proof.
  intros Hs Hrm st1. eexists. split; [by apply removeListener_sane|]. done.
Qed.

(** The requests of a 'removeListener' emission are those of the
    'removeListener' listener of the constructor. *)
Lemma rpc_removed_out st type l :
  sane st → handlers st "removeListener" = 1 →
  rpc_emissions (removed_out st type l).1 =
  rpc_emissions (out st VOnRemoveListener [VStr type; l]).1.
Proof.
  intros Hs Hr. unfold removed_out.
  destruct (listeners st "removeListener") as [|h hs] eqn:Hls.
  { unfold handlers in Hr. by rewrite Hls in Hr. }
  unfold emit_out. rewrite Hls. cbn [fst]. unfold rpc_emissions at 1.
  rewrite filter_cons_False by (simpl; done).
  apply rpc_flat_one.
  - intros x Hx. apply allowed_removed.
    pose proof (sane_allowed st "removeListener" Hs) as Hal. rewrite Hls in Hal.
    rewrite forallb_forall in Hal. apply Hal. by apply list_elem_of_In.
  - unfold handlers in Hr. by rewrite Hls in Hr.
Qed.

(** While listeners of [type] remain, a 'removeListener' emission for it
    issues no request. *)
Lemma rpc_removed_out_positive st type l :
  sane st → 0 < listenerCount st type →
  rpc_emissions (removed_out st type l).1 = [].
Proof.
  intros Hs Hpos. unfold removed_out.
  destruct (listeners st "removeListener") as [|h hs] eqn:Hls; [done|].
  unfold emit_out. rewrite Hls. cbn [fst]. unfold rpc_emissions at 1.
  rewrite filter_cons_False by (simpl; done).
  apply rpc_flat_none. intros x Hx.
  pose proof (sane_allowed st "removeListener" Hs) as Hal. rewrite Hls in Hal.
  rewrite forallb_forall in Hal. apply list_elem_of_In, Hal in Hx.
  destruct x; try discriminate; [done|].
  unfold out. cbn [arg nth].
  destruct (listenerCount st type); [lia|done].
Qed.

(** Removing the only listener of [E] from a live proxy. *)
Lemma removeListener_last fuel st E f :
  live st → listeners st E = [VFunction f] →
  ∃ st', removeListener (S (S fuel)) E (VFunction f) st = Ok tt st'
    ∧ listenerCount st' E = 0
    ∧ tokens st' = tokens st
    ∧ rpc_emissions (log st') =
      rpc_emissions (log st) ++
      [Emit "_rpc" [VStr "unsubscribe"; VObject [("subscription", token_of st E)];
                    VUnsubscribeCb E]].
Proof.
  intros (Hs & Hn & Hr) HE.
  assert (HneE : E ≠ "removeListener").
  { intros ->. unfold handlers in Hr. by rewrite HE in Hr. }
  assert (Hrm : EventEmitter.remove_last (VFunction f) (listeners st E) = Some []).
  { rewrite HE. apply remove_last_single. }
  destruct (removeListener_found fuel st E f [] Hs Hrm)
    as (st' & Hrun & Hev & Htok & _ & _ & Hlog).
  set (st1 := with_listeners E [] st) in *.
  assert (Hs1 : sane st1) by by apply sane_with.
  assert (Hcount : listenerCount st1 E = 0).
  { unfold listenerCount, st1. by rewrite listeners_with_eq. }
  exists st'. split; [done|]. split.
  { unfold listenerCount, listeners in *. by rewrite Hev. }
  split; [done|].
  rewrite Hlog, rpc_app. f_equal.
  rewrite rpc_removed_out; [|done|].
  - unfold out. cbn [arg nth]. rewrite Hcount. cbn [Nat.eqb].
    apply rpc_deliver.
  - unfold handlers, st1. by rewrite listeners_with_ne.
Qed.


End Transitions.

(** ** Liveness is kept by listener changes *)

Section Liveness.

Lemma live_events st st' : _events st' = _events st → live st → live st'.
Proof.
  intros Hev ((Hnd & Hok) & Hn & Hr).
  unfold live, sane, handlers, listeners in *. by rewrite Hev.
Qed.

Lemma allowed_app_opaque E ls f :
  forallb (allowed E) ls = true → forallb (allowed E) (ls ++ [VFunction f]) = true.
Proof. intros H. by rewrite forallb_app, H. Qed.

Lemma handlers_rev (ls : list value) :
  length (filter (fun l => is_opaque l = false) (rev ls)) =
  length (filter (fun l => is_opaque l = false) ls).
Proof.
  induction ls as [|x ls IH]; [done|].
  cbn [rev]. rewrite filter_app, length_app, IH, !filter_cons, filter_nil.
  destruct (decide (is_opaque x = false)); simpl; lia.
Qed.

Lemma remove_first_handlers f ls ls' :
  EventEmitter.remove_first (VFunction f) ls = Some ls' →
  length (filter (fun l => is_opaque l = false) ls') =
  length (filter (fun l => is_opaque l = false) ls).
Proof.
  revert ls'. induction ls as [|x ls IH]; simpl; intros ls'; [done|].
  destruct (same_function x (VFunction f)) eqn:Hx.
  - intros [= <-]. rewrite filter_cons_False; [done|]. by destruct x.
  - destruct (EventEmitter.remove_first (VFunction f) ls) as [r|]; simpl; [|done].
    intros [= <-]. rewrite !filter_cons.
    destruct (decide (is_opaque x = false)); simpl; by rewrite (IH r).
Qed.

Lemma remove_last_handlers f ls ls' :
  EventEmitter.remove_last (VFunction f) ls = Some ls' →
  length (filter (fun l => is_opaque l = false) ls') =
  length (filter (fun l => is_opaque l = false) ls).
Proof.
  unfold EventEmitter.remove_last.
  destruct (EventEmitter.remove_first (VFunction f) (rev ls)) as [r|] eqn:Hr; simpl; [|done].
  intros [= <-]. rewrite handlers_rev, (remove_first_handlers f _ _ Hr).
  apply handlers_rev.
Qed.

Lemma handlers_with st E ls T :
  sane st →
  length (filter (fun l => is_opaque l = false) ls) = handlers st E →
  handlers (with_listeners E ls st) T = handlers st T.
Proof.
  intros Hs Hlen. unfold handlers in *.
  destruct (decide (E = T)) as [<-|Hne].
  - by rewrite listeners_with_eq.
  - by rewrite listeners_with_ne.
Qed.

(** Adding an opaque listener, for any event type, keeps the proxy live. *)
Lemma on_keeps_live fuel st E f :
  live st → ∃ st', on (S (S fuel)) E (VFunction f) st = Ok tt st' ∧ live st'.
Proof.
  intros Hlive. pose proof Hlive as (Hs & Hn & Hr).
  eexists. split; [by apply on_sane|].
  rewrite with_grow.
  apply (live_events (with_listeners E (listeners st E ++ [VFunction f]) st)); [done|].
  assert (Hlen : length (filter (fun l => is_opaque l = false)
                           (listeners st E ++ [VFunction f])) = handlers st E).
  { rewrite filter_app, length_app, filter_cons_False, filter_nil by (cbn; done).
    unfold handlers. cbn [length]. lia. }
  split; [apply sane_with; [done|]; apply allowed_app_opaque; by apply sane_allowed|].
  by rewrite !handlers_with.
Qed.

(** Removing an opaque listener, for any event type, keeps the proxy live. *)
Lemma removeListener_keeps_live fuel st E f :
  live st → ∃ st', removeListener (S (S fuel)) E (VFunction f) st = Ok tt st' ∧ live st'.
Proof.
  intros Hlive. pose proof Hlive as (Hs & Hn & Hr).
  destruct (EventEmitter.remove_last (VFunction f) (listeners st E)) as [ls'|] eqn:Hrm.
  - eexists. split; [by apply removeListener_sane|].
    apply (live_events (with_listeners E ls' st)); [done|].
    pose proof (remove_last_handlers f _ _ Hrm) as Hlen.
    split.
    { apply sane_with; [done|]. eapply forallb_remove_last; [|done]. by apply sane_allowed. }
    by rewrite !handlers_with.
  - exists st. split; [by apply removeListener_absent|done].
Qed.

End Liveness.

(** ** Completion callbacks *)

Section Completions.

Lemma subscribeCb_success fuel st E error token :
  truthy error = false →
  call (S fuel) (VSubscribeCb E) [error; token] st =
  Ok VUndefined (set_tokens (<[E := token]> (tokens st)) st).
Proof.
  intros He. rewrite call_S. unfold subscribeCb. cbn [arg nth]. by rewrite He.
Qed.

Lemma unsubscribeCb_success fuel st E error rest :
  truthy error = false →
  call (S fuel) (VUnsubscribeCb E) (error :: rest) st =
  Ok VUndefined (set_tokens (delete E (tokens st)) st).
Proof.
  intros He. rewrite call_S. unfold unsubscribeCb. cbn [arg nth]. by rewrite He.
Qed.

(** [self.emit('error', error)] on a well-formed proxy: the ledger and the
    listener table are as before, whether somebody listens or not. *)
Lemma emit_error_sane fuel st error :
  sane st →
  let run := let* r := EventEmitter.emit (call (S fuel)) "error" [error] in ret (VBool r) in
  ∃ st', final (run st) = Some st'
    ∧ (listeners st "error" ≠ [] → run st = Ok (VBool true) st')
    ∧ (listeners st "error" = [] → ∃ e, run st = Throw e st')
    ∧ tokens st' = tokens st ∧ _events st' = _events st ∧ own st' = own st
    ∧ log st' = log st ++ Emit "error" [error]
                  :: map (fun l => Call l [error]) (listeners st "error").
Proof.
  intros Hs run. destruct (listeners st "error") as [|l ls] eqn:Hls.
  - assert (Hrun : ∃ e, run st = Throw e (record (Emit "error" [error]) st)).
    { unfold run, bind. rewrite emit_error_unheard by done. by eexists. }
    destruct Hrun as [e Hrun]. rewrite Hrun. eexists. split; [done|].
    split; [done|]. split; [intros _; by eexists|]. done.
  - assert (Hrun : run st = Ok (VBool true)
               (grow (deliver st "error" [error]).1 (deliver st "error" [error]).2 st)).
    { unfold run, bind. rewrite emit_deliver; [|by apply sane_opaque|by rewrite Hls].
      by rewrite Hls. }
    rewrite Hrun. eexists. split; [done|]. split; [done|]. split; [done|].
    unfold deliver. rewrite Hls. done.
Qed.

Lemma releaseCb_failure fuel st error rest :
  truthy error = true →
  call (S fuel) VReleaseCb (error :: rest) st =
  Ok VUndefined (record (ConsoleError error) st).
Proof.
  intros He. rewrite call_S. unfold releaseCb. cbn [arg nth]. by rewrite He.
Qed.

End Completions.

(** ** A concrete proxy *)

Lemma example_proxy_live : live example_proxy.
Proof.
  split; [split|split]; try by vm_compute.
  apply (bool_decide_unpack _). by vm_compute.
Qed.

Lemma example_subscribed_live : live example_subscribed.
Proof.
  split; [split|split]; try by vm_compute.
  apply (bool_decide_unpack _). by vm_compute.
Qed.

Lemma Error_ordinary : "Error" ∉ object_prototype_names.
Proof. by_decide. Qed.

(** ** The claims *)




Section Invoke.

Lemma function_truthy v : is_function v = true → truthy v = true.
Proof. by destruct v. Qed.

Lemma invoke_sane fuel st method params callback :
  sane st → is_function params = false →
  invoke (S fuel) method params callback st =
  Ok tt (grow (deliver st "_rpc" (invoke_args method params callback)).1
              (deliver st "_rpc" (invoke_args method params callback)).2 st).
Proof.
  intros Hs Hp. unfold invoke. rewrite Hp. unfold bind at 1. unfold ret at 1.
  unfold bind. unfold emit.
  rewrite emit_deliver; [done|by apply sane_rpc|done].
Qed.

Lemma invoke_shift fuel st method params :
  is_function params = true →
  invoke fuel method params VUndefined st = invoke fuel method VNull params st.
Proof. intros Hp. unfold invoke. by rewrite Hp. Qed.

Lemma flat_map_nil {A B} (ls : list A) : flat_map (fun _ => @nil B) ls = [].
Proof. by induction ls. Qed.

Lemma invokeCb_failure fuel st cb error result :
  truthy error = true →
  call (S (S fuel)) (VInvokeCb (VFunction cb)) [error; result] st =
  Ok VUndefined (grow [Call (VFunction cb) [error]] (callbacks [error]) st).
Proof.
  intros He. rewrite call_S. unfold invokeCb. cbn [arg nth]. by rewrite He.
Qed.

Lemma invokeCb_success fuel st cb error fields v :
  truthy error = false → assoc "value" fields = Some v →
  call (S (S fuel)) (VInvokeCb (VFunction cb)) [error; VObject fields] st =
  Ok VUndefined (grow [Call (VFunction cb) [VNull; v]] (callbacks [VNull; v]) st).
Proof.
  intros He Hv. rewrite call_S. unfold invokeCb. cbn [arg nth]. rewrite He.
  unfold bind, get_member, ret. by rewrite Hv.
Qed.

End Invoke.

(** C3: when a subscribe or an unsubscribe request completes with an error,
    the proxy emits 'error' with that error (each 'error' listener is called
    with it; with nobody listening the emitter throws), and the ledger is
    exactly as before: the failed subscribe adds no entry and the failed
    unsubscribe keeps the entry it had. *)
Theorem C3_rpc_failure (fuel : nat) (st : state) (E : string) (error token : value) :
  sane st → truthy error = true →
  (∃ st', final (call (S (S fuel)) (VSubscribeCb E) [error; token] st) = Some st'
     ∧ log st' = log st ++ Emit "error" [error]
                   :: map (fun l => Call l [error]) (listeners st "error")
     ∧ tokens st' = tokens st)
  ∧ (∃ st', final (call (S (S fuel)) (VUnsubscribeCb E) [error] st) = Some st'
     ∧ log st' = log st ++ Emit "error" [error]
                   :: map (fun l => Call l [error]) (listeners st "error")
     ∧ tokens st' = tokens st).
Proof.
  intros Hs He.
  destruct (emit_error_sane fuel st error Hs) as (st' & Hfin & _ & _ & Htok & _ & _ & Hlog).
  split; exists st'; rewrite call_S.
  - unfold subscribeCb. cbn [arg nth]. by rewrite He.
  - unfold unsubscribeCb. cbn [arg nth]. by rewrite He.
Qed.

Lemma C3_rpc_failure_witness :
  sane example_subscribed ∧ truthy (VError "Error" "timeout") = true ∧
  ((∃ st', final (call 2 (VSubscribeCb "Error")
                    [VError "Error" "timeout"; VUndefined] example_subscribed) = Some st'
     ∧ log st' = log example_subscribed ++ Emit "error" [VError "Error" "timeout"]
                   :: map (fun l => Call l [VError "Error" "timeout"])
                        (listeners example_subscribed "error")
     ∧ tokens st' = tokens example_subscribed)
  ∧ (∃ st', final (call 2 (VUnsubscribeCb "Error")
                    [VError "Error" "timeout"] example_subscribed) = Some st'
     ∧ log st' = log example_subscribed ++ Emit "error" [VError "Error" "timeout"]
                   :: map (fun l => Call l [VError "Error" "timeout"])
                        (listeners example_subscribed "error")
     ∧ tokens st' = tokens example_subscribed)).
Proof.
  split; [exact (live_sane _ example_subscribed_live)|]. split; [reflexivity|].
  apply (C3_rpc_failure 0 example_subscribed "Error" (VError "Error" "timeout") VUndefined).
  - exact (live_sane _ example_subscribed_live).
  - reflexivity.
Defined.

(** C6: when the release request completes with an error, the error is
    written to the console and nothing else happens: the call returns
    normally, the log gains that one entry (no 'error' and no 'release'
    emission), and listeners, ledger and attributes are as before. *)
Theorem C6_release_failure (fuel : nat) (st : state) (error : value) :
  truthy error = true →
  ∃ st', call (S fuel) VReleaseCb [error] st = Ok VUndefined st'
    ∧ log st' = log st ++ [ConsoleError error]
    ∧ unchanged st st' ∧ pending st' = pending st.
Proof.
  intros He. exists (record (ConsoleError error) st).
  split; [by apply releaseCb_failure|]. done.
Qed.

Lemma C6_release_failure_witness :
  truthy (VError "Error" "gone") = true ∧
  ∃ st', call 1 VReleaseCb [VError "Error" "gone"] example_subscribed = Ok VUndefined st'
    ∧ log st' = log example_subscribed ++ [ConsoleError (VError "Error" "gone")]
    ∧ unchanged example_subscribed st' ∧ pending st' = pending example_subscribed.
Proof.
  split; [reflexivity|].
  apply (C6_release_failure 0 example_subscribed (VError "Error" "gone")). reflexivity.
Defined.

(** C7: [invoke(m, f, g)] with two functions throws a SyntaxError at once:
    the state, and so the log, is as before the call, no '_rpc' emission
    has happened. *)
Theorem C7_invoke_misordered (fuel : nat) (st : state) (m f g : value) :
  is_function f = true → is_function g = true →
  invoke fuel m f g st =
  Throw (SyntaxError "Nothing can be defined after the callback") st.
Proof.
  intros Hf Hg. unfold invoke. rewrite Hf, (function_truthy g Hg). reflexivity.
Qed.

Lemma C7_invoke_misordered_witness :
  is_function (VFunction 5) = true ∧ is_function (VFunction 6) = true ∧
  invoke 2 (VStr "foo") (VFunction 5) (VFunction 6) example_proxy =
  Throw (SyntaxError "Nothing can be defined after the callback") example_proxy.
Proof.
  split; [reflexivity|]. split; [reflexivity|].
  apply (C7_invoke_misordered 2 example_proxy (VStr "foo") (VFunction 5) (VFunction 6));
    reflexivity.
Defined.

(** C4: [invoke(m, p, cb)] with a params object [p] emits one '_rpc' request
    of kind 'invoke' with payload [{operation: m, operationParams: p}];
    [invoke(m, cb)] emits the payload [{operation: m}], without an
    [operationParams] key; when the request completes without error and
    with a raw result whose [value] is [v], [cb] is called with [(null, v)];
    when it completes with an error, [cb] is called with that error alone.
    None of these steps changes the attributes, the listeners or the ledger
    of the proxy. *)
Theorem C4_invoke (fuel : nat) (st : state) (m : string)
    (fields : list (string * value)) (cb : nat) :
  sane st →
  (∃ st', invoke (S (S fuel)) (VStr m) (VObject fields) (VFunction cb) st = Ok tt st'
     ∧ rpc_emissions (log st') =
       rpc_emissions (log st) ++
       [Emit "_rpc" [VStr "invoke";
                     VObject [("operation", VStr m); ("operationParams", VObject fields)];
                     VInvokeCb (VFunction cb)]]
     ∧ unchanged st st')
  ∧ (∃ st', invoke (S (S fuel)) (VStr m) (VFunction cb) VUndefined st = Ok tt st'
     ∧ rpc_emissions (log st') =
       rpc_emissions (log st) ++
       [Emit "_rpc" [VStr "invoke"; VObject [("operation", VStr m)];
                     VInvokeCb (VFunction cb)]]
     ∧ unchanged st st')
  ∧ (∀ error raw v, truthy error = false → assoc "value" raw = Some v →
     ∃ st', call (S (S fuel)) (VInvokeCb (VFunction cb)) [error; VObject raw] st
            = Ok VUndefined st'
       ∧ log st' = log st ++ [Call (VFunction cb) [VNull; v]]
       ∧ unchanged st st')
  ∧ (∀ error result, truthy error = true →
     ∃ st', call (S (S fuel)) (VInvokeCb (VFunction cb)) [error; result] st
            = Ok VUndefined st'
       ∧ log st' = log st ++ [Call (VFunction cb) [error]]
       ∧ unchanged st st').
Proof.
  intros Hs. repeat split.
  - eexists. split; [by apply invoke_sane|]. split; [|done].
    cbn [log grow]. by rewrite rpc_app, rpc_deliver.
  - eexists. split; [rewrite invoke_shift by done; by apply invoke_sane|].
    split; [|done]. cbn [log grow]. by rewrite rpc_app, rpc_deliver.
  - intros error raw v He Hv. eexists. split; [by apply invokeCb_success|]. done.
  - intros error result He. eexists. split; [by apply invokeCb_failure|]. done.
Qed.

Lemma C4_invoke_witness :
  sane example_proxy ∧
  (∃ st', invoke 2 (VStr "foo") (VObject [("a", VNum 1)]) (VFunction 9) example_proxy
          = Ok tt st'
     ∧ rpc_emissions (log st') =
       rpc_emissions (log example_proxy) ++
       [Emit "_rpc" [VStr "invoke";
                     VObject [("operation", VStr "foo");
                              ("operationParams", VObject [("a", VNum 1)])];
                     VInvokeCb (VFunction 9)]]
     ∧ unchanged example_proxy st')
  ∧ (∃ st', call 2 (VInvokeCb (VFunction 9)) [VNull; VObject [("value", VNum 42)]]
              example_proxy = Ok VUndefined st'
       ∧ log st' = log example_proxy ++ [Call (VFunction 9) [VNull; VNum 42]]
       ∧ unchanged example_proxy st').
Proof.
  split; [exact (live_sane _ example_proxy_live)|].
  destruct (C4_invoke 0 example_proxy "foo" [("a", VNum 1)] 9
              (live_sane _ example_proxy_live)) as (Hcall & _ & Hok & _).
  split; [exact Hcall|].
  apply (Hok VNull [("value", VNum 42)] (VNum 42)); reflexivity.
Defined.

(** C9: the guard on 'release' and '_rpc' is on the subscribe side only.
    On a live proxy, adding a listener for one of them emits no request and
    leaves the ledger alone, while removing its last listener emits one
    '_rpc' request of kind 'unsubscribe'; with no ledger entry for the event
    type, the [subscription] field of that request is [undefined]. *)
Theorem C9_unsubscribe_unguarded (fuel : nat) (st : state) (E : string) (f : nat) :
  live st → E = "release" ∨ E = "_rpc" →
  (∃ st', on (S (S fuel)) E (VFunction f) st = Ok tt st'
     ∧ rpc_emissions (log st') = rpc_emissions (log st)
     ∧ tokens st' = tokens st)
  ∧ (listeners st E = [VFunction f] → tokens st !! E = None →
     ∃ st', removeListener (S (S fuel)) E (VFunction f) st = Ok tt st'
       ∧ rpc_emissions (log st') =
         rpc_emissions (log st) ++
         [Emit "_rpc" [VStr "unsubscribe"; VObject [("subscription", VUndefined)];
                       VUnsubscribeCb E]]).
Proof.
  intros Hlive HE. split.
  - destruct (on_live fuel st E f Hlive) as (st' & Hon & _ & _ & Htok & _ & _ & Hreq).
    exists st'. split; [done|]. split; [|done].
    rewrite Hreq. unfold out. cbn [arg nth].
    destruct HE as [-> | ->]; cbn [String.eqb Ascii.eqb Bool.eqb orb];
      by rewrite app_nil_r.
  - intros Hls Htok.
    destruct (removeListener_last fuel st E f Hlive Hls) as (st' & Hrun & _ & _ & Hreq).
    exists st'. split; [done|]. rewrite Hreq. unfold token_of. by rewrite Htok.
Qed.

Lemma C9_unsubscribe_unguarded_witness :
  live example_proxy ∧ ("_rpc" = "release" ∨ "_rpc" = "_rpc") ∧
  ∃ st', removeListener 2 "_rpc" (VFunction 0) example_proxy = Ok tt st'
    ∧ rpc_emissions (log st') =
      rpc_emissions (log example_proxy) ++
      [Emit "_rpc" [VStr "unsubscribe"; VObject [("subscription", VUndefined)];
                    VUnsubscribeCb "_rpc"]].
Proof.
  split; [exact example_proxy_live|]. split; [by right|].
  destruct (C9_unsubscribe_unguarded 0 example_proxy "_rpc" 0
              example_proxy_live ltac:(by right)) as (_ & Hlast).
  apply Hlast; reflexivity.
Defined.

(** C10: [invoke(m, p)] without a completion handler emits the '_rpc'
    request with [undefined] in the callback position.  The gateway is
    handed no closure of the proxy for this request, so no completion of it
    can run code of the proxy: the call returns normally, the log gains the
    emission and the calls of the '_rpc' listeners only, and the set of
    completion callbacks held outside is as before. *)
Theorem C10_invoke_without_handler (fuel : nat) (st : state) (m : string) (p : value) :
  sane st → is_function p = false →
  ∃ st', invoke (S fuel) (VStr m) p VUndefined st = Ok tt st'
    ∧ log st' =
      log st ++
      Emit "_rpc" (invoke_args (VStr m) p VUndefined)
        :: map (fun l => Call l (invoke_args (VStr m) p VUndefined)) (listeners st "_rpc")
    ∧ arg 2 (invoke_args (VStr m) p VUndefined) = VUndefined
    ∧ pending st' = pending st
    ∧ unchanged st st'.
Proof.
  intros Hs Hp. eexists. split; [by apply invoke_sane|].
  split; [done|]. split; [done|]. split; [|done].
  cbn [pending grow deliver snd]. unfold callbacks, invoke_args.
  cbn [truthy]. rewrite !filter_cons_False by (simpl; done).
  rewrite filter_nil, flat_map_nil. apply app_nil_r.
Qed.

Lemma C10_invoke_without_handler_witness :
  sane example_proxy ∧ is_function (VObject [("a", VNum 1)]) = false ∧
  ∃ st', invoke 1 (VStr "foo") (VObject [("a", VNum 1)]) VUndefined example_proxy = Ok tt st'
    ∧ log st' =
      log example_proxy ++
      Emit "_rpc" (invoke_args (VStr "foo") (VObject [("a", VNum 1)]) VUndefined)
        :: map (fun l => Call l (invoke_args (VStr "foo") (VObject [("a", VNum 1)]) VUndefined))
             (listeners example_proxy "_rpc")
    ∧ arg 2 (invoke_args (VStr "foo") (VObject [("a", VNum 1)]) VUndefined) = VUndefined
    ∧ pending st' = pending example_proxy
    ∧ unchanged example_proxy st'.
Proof.
  split; [exact (live_sane _ example_proxy_live)|]. split; [reflexivity|].
  apply (C10_invoke_without_handler 0 example_proxy "foo" (VObject [("a", VNum 1)])).
  - exact (live_sane _ example_proxy_live).
  - reflexivity.
Defined.

(** ** Release *)

Section Release.

Lemma extends_refl st : sane st → extends st st.
Proof.
  intros Hs. split; [done|]. do 3 (split; [done|]). exists []. by rewrite app_nil_r.
Qed.

Lemma extends_trans st1 st2 st3 : extends st1 st2 → extends st2 st3 → extends st1 st3.
Proof.
  intros (_ & Ht1 & Ho1 & Hp1 & d1 & Hl1) (Hs & Ht2 & Ho2 & Hp2 & d2 & Hl2).
  split; [done|]. split; [congruence|]. split; [congruence|].
  split; [set_solver|]. exists (d1 ++ d2). by rewrite Hl2, Hl1, app_assoc.
Qed.

Lemma allowed_function type l : allowed type l = true → is_function l = true.
Proof. by destruct l. Qed.

Lemma removeListener_extends fuel st type l :
  sane st → is_function l = true →
  ∃ st', removeListener (S (S fuel)) type l st = Ok tt st' ∧ extends st st'.
Proof.
  intros Hs Hfn.
  destruct (EventEmitter.remove_last l (listeners st type)) as [ls'|] eqn:Hrm.
  - eexists. split; [by apply removeListener_sane|].
    split.
    { apply sane_grow, sane_with; [done|].
      eapply forallb_remove_last; [|done]. by apply sane_allowed. }
    do 2 (split; [done|]).
    split; [cbn [pending grow with_listeners set_events]; set_solver|].
    by eexists.
  - exists st. split; [by apply removeListener_absent|]. by apply extends_refl.
Qed.

Lemma remove_each_extends fuel st type ls :
  sane st → forallb is_function ls = true →
  ∃ st', EventEmitter.remove_each (call (S (S fuel))) type ls st = Ok tt st'
    ∧ extends st st'.
Proof.
  revert st. induction ls as [|l ls IH]; intros st Hs Hfn.
  - exists st. split; [done|]. by apply extends_refl.
  - simpl in Hfn. apply andb_true_iff in Hfn as [Hl Hls].
    destruct (removeListener_extends fuel st type l Hs Hl) as (st1 & Hrun1 & Hext1).
    destruct (IH st1 (proj1 Hext1) Hls) as (st2 & Hrun2 & Hext2).
    exists st2. split; [|by eapply extends_trans].
    cbn [EventEmitter.remove_each]. unfold bind.
    unfold removeListener in Hrun1. by rewrite Hrun1.
Qed.

Lemma sane_functions st type : sane st → forallb is_function (listeners st type) = true.
Proof.
  intros Hs. pose proof (sane_allowed st type Hs) as Hal.
  induction (listeners st type) as [|l ls IH]; [done|].
  simpl in *. apply andb_true_iff in Hal as [Hl Hls].
  by rewrite (allowed_function type l Hl), IH.
Qed.

Lemma extends_with type st : sane st → extends st (with_listeners type [] st).
Proof.
  intros Hs. split; [by apply sane_with|]. do 3 (split; [done|]).
  exists []. cbn [log with_listeners set_events]. by rewrite app_nil_r.
Qed.

Lemma removeAllListeners_of_extends fuel st type :
  sane st →
  ∃ st', EventEmitter.removeAllListeners_of (call (S (S fuel))) type st = Ok tt st'
    ∧ extends st st'.
Proof.
  intros Hs. unfold EventEmitter.removeAllListeners_of. unfold bind at 1. unfold get.
  destruct (listeners st "removeListener") as [|h hs].
  - eexists. split; [reflexivity|]. by apply extends_with.
  - destruct (remove_each_extends fuel st type (rev (listeners st type)) Hs)
      as (st1 & Hrun & Hext).
    { rewrite forallb_rev. by apply sane_functions. }
    unfold bind. rewrite Hrun. eexists. split; [reflexivity|].
    eapply extends_trans; [done|]. apply extends_with, Hext.
Qed.

Lemma remove_keys_extends fuel st keys :
  sane st →
  ∃ st', EventEmitter.remove_keys (call (S (S fuel))) keys st = Ok tt st'
    ∧ extends st st'.
Proof.
  revert st. induction keys as [|key keys IH]; intros st Hs.
  - exists st. split; [done|]. by apply extends_refl.
  - cbn [EventEmitter.remove_keys]. unfold bind at 1.
    assert (Hstep : ∃ st1,
      (if String.eqb key "removeListener" then ret tt
       else let* st0 := get in
            match assoc key (_events st0) with
            | None => ret tt
            | Some _ => EventEmitter.removeAllListeners_of (call (S (S fuel))) key
            end) st = Ok tt st1 ∧ extends st st1).
    { destruct (String.eqb key "removeListener").
      - exists st. split; [done|]. by apply extends_refl.
      - unfold bind, get. destruct (assoc key (_events st)).
        + by apply removeAllListeners_of_extends.
        + exists st. split; [done|]. by apply extends_refl. }
    destruct Hstep as (st1 & Hrun1 & Hext1). rewrite Hrun1.
    destruct (IH st1 (proj1 Hext1)) as (st2 & Hrun2 & Hext2).
    exists st2. split; [done|]. by eapply extends_trans.
Qed.

(** [removeAllListeners()] on a well-formed proxy empties the table. *)
Lemma removeAllListeners_sane fuel st :
  sane st →
  ∃ st', EventEmitter.removeAllListeners (call (S (S fuel))) st = Ok tt st'
    ∧ _events st' = [] ∧ tokens st' = tokens st ∧ own st' = own st
    ∧ ∃ d, log st' = log st ++ d.
Proof.
  intros Hs. unfold EventEmitter.removeAllListeners. unfold bind at 1. unfold get.
  destruct (listeners st "removeListener") as [|h hs].
  - eexists. split; [reflexivity|]. do 3 (split; [done|]).
    exists []. cbn [log set_events]. by rewrite app_nil_r.
  - destruct (remove_keys_extends fuel st (map fst (_events st)) Hs)
      as (st1 & Hrun1 & Hext1).
    destruct (removeAllListeners_of_extends fuel st1 "removeListener" (proj1 Hext1))
      as (st2 & Hrun2 & Hext2).
    unfold bind. rewrite Hrun1, Hrun2.
    destruct (extends_trans _ _ _ Hext1 Hext2) as (_ & Ht & Ho & _ & d & Hl).
    eexists. split; [reflexivity|]. do 3 (split; [done|]). by exists d.
Qed.

End Release.

(** C5: when the release request completes without error, the proxy first
    emits 'release', calling every 'release' listener registered at that
    moment, and then removes all listeners: the listener table ends up
    empty, so that no event type (named otherwise than a member of
    [Object.prototype]) has a listener left. *)
Theorem C5_release_success (fuel : nat) (st : state) (error : value) :
  sane st → truthy error = false →
  ∃ st' rest, call (S (S (S fuel))) VReleaseCb [error] st = Ok VUndefined st'
    ∧ log st' = log st ++ Emit "release" []
                  :: map (fun l => Call l []) (listeners st "release") ++ rest
    ∧ _events st' = []
    ∧ ∀ E, E ∉ object_prototype_names → listenerCount st' E = 0.
Proof.
  intros Hs He. rewrite call_S. unfold releaseCb. cbn [arg nth]. rewrite He.
  unfold bind at 1.
  rewrite emit_deliver; [|by apply sane_opaque|done].
  set (st1 := grow _ _ st).
  destruct (removeAllListeners_sane fuel st1) as (st' & Hrun & Hev & _ & _ & d & Hlog);
    [done|].
  unfold bind. rewrite Hrun. exists st', d. split; [done|].
  split; [|split; [done|]].
  - rewrite Hlog. unfold st1. cbn [log grow deliver fst]. by rewrite <- app_assoc.
  - intros E _. unfold listenerCount, listeners. by rewrite Hev.
Qed.

Lemma C5_release_success_witness :
  sane example_subscribed ∧ truthy VUndefined = false ∧
  ∃ st' rest, call 3 VReleaseCb [VUndefined] example_subscribed = Ok VUndefined st'
    ∧ log st' = log example_subscribed ++ Emit "release" []
                  :: map (fun l => Call l []) (listeners example_subscribed "release") ++ rest
    ∧ _events st' = []
    ∧ ∀ E, E ∉ object_prototype_names → listenerCount st' E = 0.
Proof.
  split; [exact (live_sane _ example_subscribed_live)|]. split; [reflexivity|].
  apply (C5_release_success 0 example_subscribed VUndefined).
  - exact (live_sane _ example_subscribed_live).
  - reflexivity.
Defined.

(** ** Construction *)

Section Attributes.

Lemma bind_Ok {A B} (m : M A) (k : A → M B) st a st' :
  m st = Ok a st' → bind m k st = k a st'.
Proof. intros H. unfold bind. by rewrite H. Qed.

Lemma assoc_app_new {A} (k key : string) (a : A) (o : list (string * A)) :
  assoc k (o ++ [(key, a)]) =
  match assoc k o with
  | Some x => Some x
  | None => if String.eqb k key then Some a else None
  end.
Proof.
  induction o as [|[k' x] o IH]; simpl; [done|].
  destruct (String.eqb k k'); [done|apply IH].
Qed.

Lemma assoc_replace_value (k key : string) (v : value) (o : list (string * property)) :
  assoc k (replace_value key v o) =
  if String.eqb k key
  then (fun p => Property v (writable p) (enumerable p) (configurable p)) <$> assoc key o
  else assoc k o.
Proof.
  induction o as [|[k' p] o IH]; simpl.
  - by destruct (String.eqb k key).
  - destruct (String.eqb_spec key k') as [->|Hne]; simpl.
    + destruct (String.eqb_spec k k') as [->|Hk]; [done|].
      by destruct (String.eqb k k').
    + rewrite IH. destruct (String.eqb_spec k key) as [->|Hk].
      * destruct (String.eqb_spec key k'); [done|]. done.
      * done.
Qed.


Lemma defineProperty_fresh ek defs key v o ev t p l :
  defined_so_far ek defs o → assoc key defs = None →
  ∃ o', defineProperty key v (State o ev t p l) = Ok tt (State o' ev t p l)
    ∧ defined_so_far ek ((key, v) :: defs) o'.
Proof.
  intros [Hem Hother] Hfresh. unfold defineProperty, bind, get. cbn [own].
  destruct (decide (key ∈ ek)) as [Hin|Hout].
  - destruct (Hem key Hin) as (q & Hq & Hconf). rewrite Hq, Hconf. cbn [orb].
    eexists. split; [reflexivity|]. cbn [own set_own]. split.
    + intros k Hk. rewrite assoc_replace_value.
      destruct (String.eqb_spec k key) as [Heq|_]; [subst k|by apply Hem].
      rewrite Hq. simpl. by eexists.
    + intros k Hk. rewrite assoc_replace_value. simpl.
      destruct (String.eqb_spec k key) as [Heq|_]; [by subst k|]. by apply Hother.
  - pose proof (Hother key Hout) as Hnone. rewrite Hfresh in Hnone. simpl in Hnone.
    rewrite Hnone.
    eexists. split; [reflexivity|]. cbn [own set_own]. split.
    + intros k Hk. rewrite assoc_app_new.
      destruct (Hem k Hk) as (q & -> & Hconf). by eexists.
    + intros k Hk. rewrite assoc_app_new. simpl. rewrite (Hother k Hk).
      destruct (String.eqb_spec k key) as [Heq|_].
      * subst k. by rewrite Hfresh.
      * by destruct (assoc k defs).
Qed.

Lemma define_params_fresh ek params keys defs o ev t p l :
  defined_so_far ek defs o → NoDup keys → (∀ k, k ∈ keys → assoc k defs = None) →
  ∃ o' defs', define_params params keys (State o ev t p l) = Ok tt (State o' ev t p l)
    ∧ defined_so_far ek defs' o'
    ∧ (∀ k, assoc k defs' =
            if decide (k ∈ keys) then Some (member_of params k) else assoc k defs).
Proof.
  revert defs o. induction keys as [|key keys IH]; intros defs o Hinv Hnd Hfresh.
  - exists o, defs. split; [done|]. split; [done|].
    intros k. by destruct (decide (k ∈ [])) as [?%elem_of_nil|].
  - apply NoDup_cons in Hnd as [Hkey Hnd].
    destruct (defineProperty_fresh ek defs key (member_of params key) o ev t p l Hinv)
      as (o1 & Hrun1 & Hinv1); [apply Hfresh; left|].
    destruct (IH ((key, member_of params key) :: defs) o1 Hinv1 Hnd)
      as (o2 & defs2 & Hrun2 & Hinv2 & Hdefs2).
    { intros k Hk. simpl. destruct (String.eqb_spec k key) as [->|_]; [done|].
      apply Hfresh. by right. }
    exists o2, defs2. split.
    { cbn [define_params]. unfold bind. by rewrite Hrun1. }
    split; [done|]. intros k. rewrite Hdefs2.
    destruct (decide (k ∈ keys)) as [Hin|Hout].
    + rewrite decide_True; [done|by right].
    + simpl. destruct (String.eqb_spec k key) as [->|Hne].
      * rewrite decide_True; [done|left].
      * rewrite decide_False; [done|]. rewrite elem_of_cons. tauto.
Qed.

Lemma emitter_defined (emitterOwn : list (string * value)) :
  defined_so_far (map fst emitterOwn) []
    (map (fun kv => (kv.1, assigned kv.2)) emitterOwn).
Proof.
  split.
  - intros k Hk. induction emitterOwn as [|[k' v] l IH]; simpl in *.
    + by apply elem_of_nil in Hk.
    + destruct (String.eqb_spec k k') as [->|Hne]; [by eexists|].
      apply IH. apply elem_of_cons in Hk as [?|?]; done.
  - intros k Hk. simpl. apply assoc_None_notin.
    by rewrite map_map.
Qed.

(** The constructor, on an object fresh from [new], with a params object
    and an emitter as parent. *)
Lemma shadows_none emitterOwn (keys : list string) :
  (∀ k, k ∈ keys → (k ∉ proxy_members) ∧ (k ∉ map fst emitterOwn)) →
  existsb (shadows emitterOwn) keys = false.
Proof.
  induction keys as [|k keys IH]; intros H; [done|].
  cbn [existsb]. rewrite IH by (intros k' Hk'; apply H; by right).
  destruct (H k ltac:(left)) as [H1 H2]. unfold shadows.
  by rewrite !bool_decide_eq_false_2.
Qed.

(** The fields of Node's emitter are among the names a params property must
    not have, and none of them is 'id', 'parent' or 'pipeline'. *)
Lemma node_names (keys : list string) :
  (∀ k, k ∈ keys → k ∉ proxy_members) →
  ∀ k, k ∈ keys → (k ∉ proxy_members) ∧ (k ∉ map fst node_emitterOwn).
Proof.
  intros H k Hk. split; [by apply H|]. intros Hin. apply (H k Hk).
  cbn in Hin.
  repeat (apply elem_of_cons in Hin as [->|Hin]; [by_decide|]).
  by apply elem_of_nil in Hin.
Qed.


Lemma MediaObject_runs emitterOwn fuel id p pipeline fields :
  (∀ k, k ∈ ["id"; "parent"; "pipeline"] → k ∉ map fst fields) →
  (∀ k, k ∈ map fst fields → (k ∉ proxy_members) ∧ (k ∉ map fst emitterOwn)) →
  ∃ o defs,
    MediaObject emitterOwn fuel id (VRef p) pipeline (VObject fields) blank =
    Ok tt (State o [("removeListener", [VOnRemoveListener]);
                    ("newListener", [VOnNewListener])]
             ∅ [] [ParentEmit p "mediaObject" [VThis]])
    ∧ defined_so_far (map fst emitterOwn) defs o
    ∧ (∀ k, assoc k defs =
         if String.eqb k "pipeline" then Some (if truthy pipeline then pipeline else VThis)
         else if String.eqb k "parent" then Some (VRef p)
         else if String.eqb k "id" then Some id
         else if decide (k ∈ map fst fields)
              then Some (member_of (VObject fields) k) else None).
Proof.
  intros Hkeys Hnames.
  destruct (define_params_fresh (map fst emitterOwn) (VObject fields)
              (remove_dups (map fst fields)) []
              (map (fun kv => (kv.1, assigned kv.2)) emitterOwn) [] ∅ [] []
              (emitter_defined emitterOwn) (NoDup_remove_dups _))
    as (o1 & defs1 & Hrun1 & Hinv1 & Hdefs1); [done|].
  assert (Hf : ∀ k, k ∈ ["id"; "parent"; "pipeline"] → assoc k defs1 = None).
  { intros k Hk. rewrite Hdefs1, decide_False; [done|].
    rewrite elem_of_remove_dups. by apply Hkeys. }
  destruct (defineProperty_fresh _ defs1 "id" id o1
              [("removeListener", [VOnRemoveListener]); ("newListener", [VOnNewListener])]
              ∅ [] [] Hinv1) as (o2 & Hrun2 & Hinv2).
  { apply Hf. by_decide. }
  destruct (defineProperty_fresh _ _ "parent" (VRef p) o2
              [("removeListener", [VOnRemoveListener]); ("newListener", [VOnNewListener])]
              ∅ [] [] Hinv2) as (o3 & Hrun3 & Hinv3).
  { simpl. apply Hf. by_decide. }
  destruct (defineProperty_fresh _ _ "pipeline" (if truthy pipeline then pipeline else VThis) o3
              [("removeListener", [VOnRemoveListener]); ("newListener", [VOnNewListener])]
              ∅ [] [] Hinv3) as (o4 & Hrun4 & Hinv4).
  { simpl. apply Hf. by_decide. }
  exists o4, (("pipeline", if truthy pipeline then pipeline else VThis)
              :: ("parent", VRef p) :: ("id", id) :: defs1).
  split; [|split; [done|]].
  - unfold MediaObject.
    erewrite bind_Ok; [|reflexivity].
    erewrite bind_Ok; cycle 1.
    { unfold bind, for_in, ret.
      rewrite shadows_none; [apply Hrun1|].
      intros k Hk. apply Hnames. by apply elem_of_remove_dups. }
    erewrite bind_Ok; [|reflexivity].
    erewrite bind_Ok; [|reflexivity].
    erewrite bind_Ok; [|reflexivity].
    erewrite bind_Ok; [|exact Hrun2].
    erewrite bind_Ok; [|exact Hrun3].
    erewrite bind_Ok; [|exact Hrun4].
    reflexivity.
  - intros k. cbn [assoc]. rewrite Hdefs1.
    destruct (String.eqb k "pipeline"); [done|].
    destruct (String.eqb k "parent"); [done|].
    destruct (String.eqb k "id"); [done|].
    destruct (decide (k ∈ map fst fields)) as [Hin|Hout].
    + rewrite decide_True; [done|by apply elem_of_remove_dups].
    + rewrite decide_False; [done|by rewrite elem_of_remove_dups].
Qed.

End Attributes.


Lemma example_fields_free :
  ∀ k, k ∈ ["id"; "parent"; "pipeline"] →
       k ∉ map fst [("collectOnUnreferenced", VBool true)].
Proof.
  intros k Hk.
  repeat (apply elem_of_cons in Hk as [->|Hk]; [by_decide|]).
  by apply elem_of_nil in Hk.
Qed.

Lemma example_names :
  ∀ k, k ∈ map fst [("collectOnUnreferenced", VBool true)] → k ∉ proxy_members.
Proof.
  intros k Hk.
  repeat (apply elem_of_cons in Hk as [->|Hk]; [by_decide|]).
  by apply elem_of_nil in Hk.
Qed.



(** ** Runs of a proxy *)

Section Runs.

Lemma bind_inv {A B} (m : M A) (k : A → M B) st b st2 :
  bind m k st = Ok b st2 → ∃ a st1, m st = Ok a st1 ∧ k a st1 = Ok b st2.
Proof. unfold bind. destruct (m st) as [a st1| | |]; try done. by exists a, st1. Qed.

Lemma defineProperty_own key v st st' :
  defineProperty key v st = Ok tt st' →
  _events st' = _events st ∧ tokens st' = tokens st
  ∧ pending st' = pending st ∧ log st' = log st.
Proof.
  unfold defineProperty, bind, get.
  destruct (assoc key (own st)) as [q|].
  - destruct (configurable q || writable q || same_value v (p_value q)); [|done].
    by intros [= <-].
  - by intros [= <-].
Qed.

Lemma define_params_own params keys st st' :
  define_params params keys st = Ok tt st' →
  _events st' = _events st ∧ tokens st' = tokens st
  ∧ pending st' = pending st ∧ log st' = log st.
Proof.
  revert st. induction keys as [|key keys IH]; intros st.
  - by intros [= <-].
  - cbn [define_params]. intros ([] & st1 & H1 & H2)%bind_inv.
    apply defineProperty_own in H1 as (? & ? & ? & ?).
    apply IH in H2 as (? & ? & ? & ?). repeat split; congruence.
Qed.

(** The constructor leaves the two bookkeeping listeners installed, an
    empty ledger, and no request behind. *)
Lemma constructed_shape fuel st :
  constructed fuel st →
  _events st = [("removeListener", [VOnRemoveListener]); ("newListener", [VOnNewListener])]
  ∧ tokens st = ∅ ∧ pending st = [].
Proof.
  intros (id & parent & pipeline & params & Hrun).
  unfold MediaObject in Hrun.
  apply bind_inv in Hrun as ([] & s1 & H1 & Hrun). injection H1 as <-.
  apply bind_inv in Hrun as ([] & s2 & H2 & Hrun).
  apply bind_inv in H2 as (keys & s1' & Hkeys & H2).
  assert (s1' = set_events [] (set_own (fun _ => map (fun kv => (kv.1, assigned kv.2)) node_emitterOwn) blank)) as ->.
  { destruct params; try discriminate; by injection Hkeys as _ <-. }
  destruct (existsb (shadows node_emitterOwn) keys); [discriminate|].
  apply define_params_own in H2 as (He2 & Ht2 & Hp2 & Hl2).
  destruct s2 as [o2 ev2 t2 p2 l2]. cbn in He2, Ht2, Hp2, Hl2. subst ev2 t2 p2 l2.
  apply bind_inv in Hrun as ([] & s3 & H3 & Hrun). injection H3 as <-.
  apply bind_inv in Hrun as ([] & s4 & H4 & Hrun). injection H4 as <-.
  apply bind_inv in Hrun as ([] & s5 & H5 & Hrun). injection H5 as <-.
  apply bind_inv in Hrun as ([] & s6 & H6 & Hrun).
  apply defineProperty_own in H6 as (He6 & Ht6 & Hp6 & Hl6).
  apply bind_inv in Hrun as ([] & s7 & H7 & Hrun).
  apply defineProperty_own in H7 as (He7 & Ht7 & Hp7 & Hl7).
  apply bind_inv in Hrun as ([] & s8 & H8 & Hrun).
  apply defineProperty_own in H8 as (He8 & Ht8 & Hp8 & Hl8).
  cbn [announce] in Hrun. injection Hrun as <-.
  cbn [record _events tokens pending].
  rewrite He8, He7, He6, Ht8, Ht7, Ht6, Hp8, Hp7, Hp6. done.
Qed.

Lemma constructed_live fuel st : constructed fuel st → live st.
Proof.
  intros (Hev & _ & _)%constructed_shape.
  split; [split|split]; unfold handlers, listeners; rewrite Hev; try done.
  by_decide.
Qed.

End Runs.

(** ** Settled runs *)

Section Settled.

Lemma not_internal E :
  E ∉ internal_events →
  E ≠ "release" ∧ E ≠ "_rpc" ∧ E ≠ "newListener" ∧ E ≠ "removeListener".
Proof. unfold internal_events. rewrite !not_elem_of_cons. tauto. Qed.

Lemma pend_flat_none st args ls :
  (∀ l, l ∈ ls → (out st l args).2 = []) →
  flat_map (fun l => (out st l args).2) ls = [].
Proof.
  induction ls as [|l ls IH]; intros H; [done|].
  simpl. rewrite H, IH; [done| |left].
  intros l' Hl'. apply H. by right.
Qed.

Lemma pend_out_opaque st l args :
  callbacks args = [] → is_opaque l = true → (out st l args).2 = [].
Proof. intros Hcb Hl. destruct l; try discriminate. done. Qed.

Lemma pend_flat_one st args h ls :
  callbacks args = [] →
  (∀ l, l ∈ ls → is_opaque l = false → l = h) →
  length (filter (fun l => is_opaque l = false) ls) = 1 →
  flat_map (fun l => (out st l args).2) ls = (out st h args).2.
Proof.
  intros Hcb. induction ls as [|l ls IH]; intros Hh Hlen; [done|].
  simpl. rewrite filter_cons in Hlen.
  destruct (decide (is_opaque l = false)) as [Hl|Hl].
  - rewrite (Hh l) by (done || left). simpl in Hlen.
    rewrite pend_flat_none; [by rewrite app_nil_r|].
    intros l' Hl'. apply pend_out_opaque; [done|].
    assert (Hnil : filter (fun l => is_opaque l = false) ls = []).
    { apply length_zero_iff_nil. lia. }
    apply filter_opaque_nil in Hnil.
    rewrite forallb_forall in Hnil. apply Hnil. by apply list_elem_of_In.
  - rewrite pend_out_opaque by (done || by destruct (is_opaque l)).
    apply IH; [|done]. intros l' Hl'. apply Hh. by right.
Qed.

(** The callbacks [on(type, f)] hands out on a live proxy. *)
Lemma pend_on_out st type f :
  live st →
  (on_out st type (VFunction f)).2 = (out st VOnNewListener [VStr type; VFunction f]).2.
Proof.
  intros Hlive. pose proof (live_new st Hlive) as Hne.
  destruct Hlive as (Hs & Hn & _). unfold on_out.
  destruct (listeners st "newListener") as [|h hs] eqn:Hls; [done|].
  unfold emit_out. rewrite Hls. cbn [snd].
  apply pend_flat_one; [done| |].
  - intros x Hx. apply allowed_new.
    pose proof (sane_allowed st "newListener" Hs) as Hal. rewrite Hls in Hal.
    rewrite forallb_forall in Hal. apply Hal. by apply list_elem_of_In.
  - unfold handlers in Hn. by rewrite Hls in Hn.
Qed.

(** The callbacks a 'removeListener' emission hands out. *)
Lemma pend_removed_out st type f :
  sane st → handlers st "removeListener" = 1 →
  (removed_out st type (VFunction f)).2 =
  (out st VOnRemoveListener [VStr type; VFunction f]).2.
Proof.
  intros Hs Hr. unfold removed_out.
  destruct (listeners st "removeListener") as [|h hs] eqn:Hls.
  { unfold handlers in Hr. by rewrite Hls in Hr. }
  unfold emit_out. rewrite Hls. cbn [snd].
  apply pend_flat_one; [done| |].
  - intros x Hx. apply allowed_removed.
    pose proof (sane_allowed st "removeListener" Hs) as Hal. rewrite Hls in Hal.
    rewrite forallb_forall in Hal. apply Hal. by apply list_elem_of_In.
  - unfold handlers in Hr. by rewrite Hls in Hr.
Qed.

Lemma one_transport st a t :
  listeners st "_rpc" = [VFunction t] →
  (deliver st "_rpc" a).2 = callbacks a.
Proof. intros H. unfold deliver. rewrite H. cbn. apply app_nil_r. Qed.

Lemma release_sane fuel st :
  sane st →
  release (S fuel) st =
  Ok tt (grow (deliver st "_rpc" [VStr "release"; VObject []; VReleaseCb]).1
              (deliver st "_rpc" [VStr "release"; VObject []; VReleaseCb]).2 st).
Proof.
  intros Hs. unfold release, emit, bind.
  rewrite emit_deliver; [done|by apply sane_rpc|done].
Qed.

End Settled.

Section SettledSteps.

(** The request [on(E, f)] issues: a subscribe for the first listener of an
    event type other than 'release' and '_rpc'. *)
Lemma on_settled fuel st E f st1 :
  settled_inv st → E ≠ "_rpc" →
  on (S (S fuel)) E (VFunction f) st = Ok tt st1 →
  live st1 ∧ listeners st1 "_rpc" = listeners st "_rpc" ∧ tokens st1 = tokens st
  ∧ listenerCount st1 E = S (listenerCount st E)
  ∧ (∀ E', E ≠ E' → listeners st1 E' = listeners st E')
  ∧ pending st1 =
    pending st ++
    if String.eqb E "release" || String.eqb E "_rpc"
       || negb (Nat.eqb (listenerCount st E) 0)
    then [] else [VSubscribeCb E].
Proof.
  intros (Hlive & [t Ht] & _) Hrpc Hon.
  pose proof (live_sane st Hlive) as Hs.
  destruct (on_keeps_live fuel st E f Hlive) as (st1' & Hon' & Hlive1).
  rewrite Hon in Hon'. injection Hon' as <-.
  rewrite on_sane in Hon by done. injection Hon as <-.
  split; [done|].
  split; [by rewrite listeners_with_ne|].
  split; [done|].
  split.
  { unfold listenerCount. rewrite listeners_with_eq by done.
    rewrite length_app. cbn. lia. }
  split; [intros E' HE'; by rewrite listeners_with_ne|].
  cbn [pending with_listeners set_events grow]. f_equal.
  rewrite pend_on_out by done. unfold out. cbn [arg nth].
  destruct (String.eqb E "release" || String.eqb E "_rpc"
            || negb (Nat.eqb (listenerCount st E) 0)); [done|].
  by rewrite (one_transport st _ t).
Qed.

(** The request [removeListener(E, f)] issues: an unsubscribe when the last
    listener of the event type goes. *)
Lemma removeListener_settled fuel st E f st1 :
  settled_inv st → E ≠ "_rpc" →
  removeListener (S (S fuel)) E (VFunction f) st = Ok tt st1 →
  live st1 ∧ listeners st1 "_rpc" = listeners st "_rpc" ∧ tokens st1 = tokens st
  ∧ (∀ E', E ≠ E' → listeners st1 E' = listeners st E')
  ∧ ((listenerCount st1 E = listenerCount st E ∧ pending st1 = pending st)
     ∨ (listenerCount st E = S (listenerCount st1 E)
        ∧ pending st1 =
          pending st ++
          if Nat.eqb (listenerCount st1 E) 0 then [VUnsubscribeCb E] else [])).
Proof.
  intros (Hlive & [t Ht] & _) Hrpc Hrun.
  pose proof (live_sane st Hlive) as Hs.
  destruct (removeListener_keeps_live fuel st E f Hlive) as (st1' & Hrun' & Hlive1).
  rewrite Hrun in Hrun'. injection Hrun' as <-.
  destruct (EventEmitter.remove_last (VFunction f) (listeners st E)) as [ls'|] eqn:Hrm.
  - rewrite (removeListener_sane fuel st E (VFunction f) ls') in Hrun by done.
    injection Hrun as <-.
    set (st' := with_listeners E ls' st) in *.
    assert (Hlive' : live st') by (by apply (live_events _ st') in Hlive1).
    assert (Hcount : listenerCount st' E = length ls').
    { unfold listenerCount, st'. by rewrite listeners_with_eq. }
    split; [done|].
    split; [unfold st'; by rewrite <- (listeners_with_ne E "_rpc" ls' st)|].
    split; [done|].
    split; [intros E' HE'; unfold st'; by rewrite <- (listeners_with_ne E E' ls' st)|].
    right. split.
    { apply remove_last_length in Hrm.
      change (listenerCount (grow _ _ st') E) with (listenerCount st' E).
      rewrite Hcount. done. }
    change (listenerCount (grow _ _ st') E) with (listenerCount st' E).
    cbn [pending grow]. change (pending st') with (pending st). f_equal.
    rewrite pend_removed_out; [|by apply live_sane|by destruct Hlive' as (_ & _ & ?)].
    unfold out. cbn [arg nth].
    destruct (Nat.eqb (listenerCount st' E) 0); [|done].
    rewrite (one_transport st' _ t); [done|].
    unfold st'. by rewrite listeners_with_ne.
  - rewrite removeListener_absent in Hrun by done. injection Hrun as <-.
    split; [done|]. split; [done|]. split; [done|]. split; [done|]. by left.
Qed.

Lemma started_inv fuel st : started (S (S fuel)) st → settled_inv st.
Proof.
  intros (st0 & t & Hc & Hon).
  pose proof (constructed_live _ _ Hc) as Hlive0.
  destruct (constructed_shape _ _ Hc) as (Hev0 & Htok0 & Hpend0).
  pose proof (live_sane st0 Hlive0) as Hs0.
  destruct (on_keeps_live fuel st0 "_rpc" t Hlive0) as (st' & Hon' & Hlive).
  rewrite Hon in Hon'. injection Hon' as <-.
  rewrite on_sane in Hon by done. injection Hon as <-.
  assert (Hls0 : ∀ E, E ≠ "newListener" → E ≠ "removeListener" → listeners st0 E = []).
  { intros E Hn Hr. unfold listeners. rewrite Hev0. cbn [assoc].
    apply String.eqb_neq in Hn, Hr. by rewrite Hn, Hr. }
  split; [done|].
  split.
  { exists t. rewrite listeners_with_eq by done.
    change (listeners (grow _ _ st0) "_rpc") with (listeners st0 "_rpc").
    by rewrite Hls0. }
  intros E (Hrel & Hrpc & Hnew & Hrem)%not_internal. unfold ledger_matches.
  cbn [tokens with_listeners set_events grow]. rewrite Htok0, lookup_empty.
  unfold listenerCount. rewrite listeners_with_ne by done.
  change (listeners (grow _ _ st0) E) with (listeners st0 E).
  rewrite Hls0 by done. cbn. split; [by intros [? ?]|lia].
Qed.

Lemma app_nil_inv {A} (l : list A) (x : A) : l ≠ l ++ [x].
Proof.
  intros H. apply (f_equal length) in H. rewrite length_app in H. simpl in H. lia.
Qed.

Lemma answered_none fuel st st1 st2 :
  pending st1 = pending st → answered fuel st st1 st2 → st2 = st1.
Proof.
  intros Hp1 [[_ ->]|(cb & error & result & Hcb & _)]; [done|].
  rewrite Hp1 in Hcb. by apply app_nil_inv in Hcb.
Qed.

Lemma answered_one fuel st st1 st2 cb0 :
  pending st1 = pending st ++ [cb0] → answered fuel st st1 st2 →
  ∃ error result, truthy error = false
    ∧ call fuel cb0 [error; result] (set_pending (pending st) st1) = Ok VUndefined st2.
Proof.
  intros Hp1 [[Heq _]|(cb & error & result & Hcb & He & Hcall)].
  - rewrite Hp1 in Heq. symmetry in Heq. by apply app_nil_inv in Heq.
  - rewrite Hp1 in Hcb. apply app_inv_head in Hcb. injection Hcb as <-.
    by exists error, result.
Qed.

(** A step that leaves listeners and ledger alone. *)
Lemma settled_inv_same st st' :
  _events st' = _events st → tokens st' = tokens st → settled_inv st → settled_inv st'.
Proof.
  intros Hev Htok (Hlive & [t Ht] & Hledger).
  split; [by apply (live_events st)|].
  split; [exists t; unfold listeners; by rewrite Hev|].
  intros E HE. unfold ledger_matches, listenerCount, listeners.
  rewrite Htok, Hev. by apply Hledger.
Qed.

Lemma invoke_final fuel st m p cb st' :
  sane st → final (invoke (S fuel) m p cb st) = Some st' →
  _events st' = _events st ∧ tokens st' = tokens st.
Proof.
  intros Hs. destruct (is_function p) eqn:Hp.
  - destruct (truthy cb) eqn:Hcb.
    + unfold invoke. rewrite Hp, Hcb. by intros [= <-].
    + assert (Hshift : invoke (S fuel) m p cb st = invoke (S fuel) m VNull p st).
      { unfold invoke. by rewrite Hp, Hcb. }
      rewrite Hshift, invoke_sane by done. by intros [= <-].
  - rewrite invoke_sane by done. by intros [= <-].
Qed.

Lemma invokeCb_final fuel st cb error result st' :
  external cb = true →
  final (call (S (S fuel)) (VInvokeCb cb) [error; result] st) = Some st' →
  _events st' = _events st ∧ tokens st' = tokens st.
Proof.
  intros Hext. rewrite call_S. unfold invokeCb. cbn [arg nth].
  assert (Hcall : ∀ args st0 st0',
            final (call (S fuel) cb args st0) = Some st0' →
            _events st0' = _events st0 ∧ tokens st0' = tokens st0).
  { intros args st0 st0'. destruct cb; try discriminate; by intros [= <-]. }
  destruct (truthy error); [apply Hcall|].
  unfold bind, get_member, ret, throw.
  destruct result; try (by intros [= <-]); try apply Hcall; try discriminate.
Qed.

Lemma settled_step_inv fuel st st2 :
  settled_inv st → settled_step (S (S fuel)) st st2 → settled_inv st2.
Proof.
  intros Hinv Hstep. pose proof Hinv as (Hlive & [t Ht] & Hledger).
  pose proof (live_sane st Hlive) as Hs.
  destruct Hstep as [E f st1 HE _ Hon Hans|E f st1 HE _ Hrun Hans
                    |m p cb Hrun|i cb error result Hi Hext Hrun
                    |Hrun|i error result Hi He Hrun].
  - destruct (on_settled fuel st E f st1 Hinv HE Hon)
      as (Hlive1 & Hrpc1 & Htok1 & Hcount1 & Hothers & Hpend1).
    destruct (String.eqb E "release" || String.eqb E "_rpc"
              || negb (Nat.eqb (listenerCount st E) 0)) eqn:Hquiet.
    + rewrite app_nil_r in Hpend1. rewrite (answered_none _ _ _ _ Hpend1 Hans).
      split; [done|]. split; [exists t; by rewrite <- Ht, <- Hrpc1|].
      intros E' HE'. unfold ledger_matches. rewrite Htok1.
      destruct (decide (E = E')) as [<-|Hne].
      * destruct (not_internal E HE') as (Hrel & Hrpc & _).
        apply String.eqb_neq in Hrel, Hrpc. rewrite Hrel, Hrpc in Hquiet.
        cbn [orb] in Hquiet. apply negb_true_iff, Nat.eqb_neq in Hquiet.
        rewrite Hcount1. pose proof (Hledger E HE') as Hm. unfold ledger_matches in Hm.
        split; [lia|]. intros _. apply Hm. lia.
      * unfold listenerCount. rewrite Hothers by done. by apply Hledger.
    + apply orb_false_iff in Hquiet as [_ Hzero].
      apply negb_false_iff, Nat.eqb_eq in Hzero.
      destruct (answered_one _ _ _ _ _ Hpend1 Hans) as (error & result & He & Hcall).
      rewrite subscribeCb_success in Hcall by done. injection Hcall as <-.
      split; [by apply (live_events st1)|].
      split; [exists t; by rewrite <- Ht, <- Hrpc1|].
      intros E' HE'. unfold ledger_matches. cbn [tokens set_tokens set_pending].
      change (listenerCount (set_tokens _ (set_pending _ st1)) E')
        with (listenerCount st1 E').
      destruct (decide (E = E')) as [<-|Hne].
      * rewrite lookup_insert_eq, Hcount1. split; [lia|by eexists].
      * rewrite lookup_insert_ne, Htok1 by done.
        unfold listenerCount. rewrite Hothers by done. by apply Hledger.
  - destruct (removeListener_settled fuel st E f st1 Hinv HE Hrun)
      as (Hlive1 & Hrpc1 & Htok1 & Hothers & Hcases).
    assert (Hrest : ∀ E', E ≠ E' → E' ∉ internal_events →
              is_Some (tokens st !! E') ↔ 0 < listenerCount st1 E').
    { intros E' Hne HE'. unfold listenerCount. rewrite Hothers by done. by apply Hledger. }
    destruct Hcases as [[Hcount1 Hpend1]|[Hcount1 Hpend1]].
    + rewrite (answered_none _ _ _ _ Hpend1 Hans).
      split; [done|]. split; [exists t; by rewrite <- Ht, <- Hrpc1|].
      intros E' HE'. unfold ledger_matches. rewrite Htok1.
      destruct (decide (E = E')) as [<-|Hne]; [|by apply Hrest].
      rewrite Hcount1. by apply Hledger.
    + destruct (Nat.eqb_spec (listenerCount st1 E) 0) as [Hzero|Hpos].
      * destruct (answered_one _ _ _ _ _ Hpend1 Hans)
          as (error & result & He & Hcall).
        rewrite unsubscribeCb_success in Hcall by done. injection Hcall as <-.
        split; [by apply (live_events st1)|].
        split; [exists t; by rewrite <- Ht, <- Hrpc1|].
        intros E' HE'. unfold ledger_matches. cbn [tokens set_tokens set_pending].
        change (listenerCount (set_tokens _ (set_pending _ st1)) E')
          with (listenerCount st1 E').
        destruct (decide (E = E')) as [<-|Hne].
        -- rewrite lookup_delete_eq, Hzero. split; [by intros [? ?]|lia].
        -- rewrite lookup_delete_ne, Htok1 by done. by apply Hrest.
      * rewrite app_nil_r in Hpend1. rewrite (answered_none _ _ _ _ Hpend1 Hans).
        split; [done|]. split; [exists t; by rewrite <- Ht, <- Hrpc1|].
        intros E' HE'. unfold ledger_matches. rewrite Htok1.
        destruct (decide (E = E')) as [<-|Hne]; [|by apply Hrest].
        pose proof (Hledger E HE') as Hm. unfold ledger_matches in Hm.
        split; [lia|]. intros _. apply Hm. lia.
  - apply invoke_final in Hrun as [Hev Htok]; [|done].
    by apply (settled_inv_same st).
  - apply invokeCb_final in Hrun as [Hev Htok]; [|done].
    by apply (settled_inv_same st).
  - rewrite release_sane in Hrun by done. injection Hrun as <-.
    by apply (settled_inv_same st).
  - rewrite releaseCb_failure in Hrun by done. injection Hrun as <-.
    by apply (settled_inv_same st).
Qed.

Lemma settled_settled_inv fuel st : settled (S (S fuel)) st → settled_inv st.
Proof.
  induction 1 as [st Hstart|st st' _ IH Hstep].
  - by eapply started_inv.
  - by eapply settled_step_inv.
Qed.

End SettledSteps.

Lemma example_proxy_started : started 2 example_proxy.
Proof.
  exists (state_of (MediaObject node_emitterOwn 2 (VStr "obj-1") (VRef 0) VUndefined
                      (VObject [("collectOnUnreferenced", VBool true)]) blank)), 0.
  split; [|by vm_compute].
  exists (VStr "obj-1"), 0, VUndefined,
    (VObject [("collectOnUnreferenced", VBool true)]).
  by vm_compute.
Qed.

Lemma example_subscribed_settled : settled 2 example_subscribed.
Proof.
  apply (settled_next 2 example_proxy); [apply settled_start, example_proxy_started|].
  apply (settled_on 2 _ _ "Error" 1 example_subscribing).
  - discriminate.
  - exact Error_ordinary.
  - by vm_compute.
  - right. exists (VSubscribeCb "Error"), VNull, (VStr "tok-7").
    split; [by vm_compute|]. split; [done|]. by vm_compute.
Qed.

(** C2, as the code has it: for every event type other than 'release',
    '_rpc', 'newListener' and 'removeListener' that is not the name of a
    member of [Object.prototype], in every state of a run ([settled]) that
    starts with a constructed proxy and its one gateway listener and whose
    steps are additions and removals of listeners (for event types other
    than '_rpc' and not named like a member of [Object.prototype]), each
    with the subscribe or unsubscribe request it issued completed
    successfully before the next step, calls of [invoke] and [release],
    completions of invoke requests, and failed completions of release
    requests, the ledger has an entry for the event type exactly when the
    event type has a listener. *)
Theorem C2_settled_ledger (fuel : nat) (st : state) (E : string) :
  settled (S (S fuel)) st → E ∉ internal_events → E ∉ object_prototype_names →
  ledger_matches st E.
Proof.
  intros Hst HE _. by apply (settled_settled_inv fuel st Hst).
Qed.

Lemma C2_settled_ledger_witness :
  settled 2 example_subscribed ∧ ("Error" ∉ internal_events) ∧
  ("Error" ∉ object_prototype_names) ∧
  ledger_matches example_subscribed "Error".
Proof.
  split; [exact example_subscribed_settled|].
  split; [by_decide|]. split; [exact Error_ordinary|].
  apply (C2_settled_ledger 0 example_subscribed "Error").
  - exact example_subscribed_settled.
  - by_decide.
  - exact Error_ordinary.
Defined.

(** C2 as the specification words it fails for 'release': a listener for
    it is never subscribed, so with no request pending the event type has a
    listener and no ledger entry. *)
Lemma C2_counterexample :
  reachable 2 example_release_listener
  ∧ quiescent example_release_listener
  ∧ listenerCount example_release_listener "release" = 1
  ∧ tokens example_release_listener !! "release" = None
  ∧ ¬ ledger_matches example_release_listener "release".
Proof.
  split.
  { exists (state_of (MediaObject node_emitterOwn 2 (VStr "obj-1") (VRef 0) VUndefined
                        (VObject [("collectOnUnreferenced", VBool true)]) blank)).
    split.
    - exists (VStr "obj-1"), 0, VUndefined,
        (VObject [("collectOnUnreferenced", VBool true)]).
      by vm_compute.
    - apply (rtc_l _ _ example_proxy); [apply (step_on _ _ _ "_rpc" 0); by vm_compute|].
      apply rtc_once. apply (step_on _ _ _ "release" 1). by vm_compute. }
  split; [by vm_compute|]. split; [by vm_compute|]. split; [by vm_compute|].
  intros [_ Hm]. destruct Hm as [v Hv]; [vm_compute; lia|]. by vm_compute in Hv.
Qed.

(** Two more runs the equivalence of C2 does not survive, on an application
    event type: a failed subscribe leaves a listener without ledger entry,
    and requests that overlap leave a ledger entry without listener. *)
Lemma ledger_after_failed_subscribe :
  rtc (step 2) example_proxy example_failed_subscribe
  ∧ quiescent example_failed_subscribe
  ∧ listenerCount example_failed_subscribe "Error" = 1
  ∧ tokens example_failed_subscribe !! "Error" = None.
Proof.
  split; [|by vm_compute].
  apply (rtc_l _ _ example_subscribing); [apply (step_on _ _ _ "Error" 1); by vm_compute|].
  apply rtc_once.
  apply (step_complete _ _ _ 0 (VSubscribeCb "Error") (VError "Error" "timeout") VUndefined);
    by vm_compute.
Qed.

Lemma ledger_after_overlapping_requests :
  rtc (step 2) example_proxy example_overlapping
  ∧ quiescent example_overlapping
  ∧ listenerCount example_overlapping "Error" = 0
  ∧ tokens example_overlapping !! "Error" = Some (VStr "tok-7").
Proof.
  split; [|by vm_compute].
  apply (rtc_l _ _ example_subscribing); [apply (step_on _ _ _ "Error" 1); by vm_compute|].
  eapply rtc_l; [apply (step_removeListener _ _ _ "Error" 1); by vm_compute|].
  eapply rtc_l.
  { apply (step_complete _ _ _ 1 (VUnsubscribeCb "Error") VNull VUndefined); by vm_compute. }
  apply rtc_once.
  apply (step_complete _ _ _ 0 (VSubscribeCb "Error") VNull (VStr "tok-7")); by vm_compute.
Qed.

(** * Further properties of the code *)

Section Further.


Lemma flat_map_single {A B} (b : B) (ls : list A) :
  flat_map (fun _ => [b]) ls = map (fun _ => b) ls.
Proof. induction ls as [|x ls IH]; [done|]. simpl. by rewrite IH. Qed.

Lemma handlers_count st E : handlers st E = 1 → 0 < listenerCount st E.
Proof.
  unfold handlers, listenerCount. destruct (listeners st E); [done|]. simpl. lia.
Qed.

Lemma sane_empty st : _events st = [] → sane st.
Proof. intros H. unfold sane. rewrite H. split; [constructor|done]. Qed.

Lemma remove_first_absent f ls :
  (∀ l, l ∈ ls → l ≠ VFunction f) → EventEmitter.remove_first (VFunction f) ls = None.
Proof.
  induction ls as [|x ls IH]; [done|]. intros Hne. simpl.
  destruct (same_function x (VFunction f)) eqn:Hx.
  - exfalso. apply (Hne x); [left|].
    destruct x; try discriminate. simpl in Hx. by apply Nat.eqb_eq in Hx as ->.
  - rewrite IH; [done|]. intros l Hl. apply Hne. by right.
Qed.

Lemma remove_last_absent f ls :
  (∀ l, l ∈ ls → l ≠ VFunction f) → EventEmitter.remove_last (VFunction f) ls = None.
Proof.
  intros Hne. unfold EventEmitter.remove_last. rewrite remove_first_absent; [done|].
  intros l Hl. apply Hne. apply list_elem_of_In. apply in_rev.
  by apply list_elem_of_In.
Qed.

End Further.

(** X1: [release()] itself only sends the request: it emits one '_rpc'
    request of kind 'release' with an empty payload, hands its completion
    callback to every '_rpc' listener (to nobody when there is none), emits
    no 'release' event and leaves attributes, listeners and ledger as they
    are. *)
Theorem X1_release_request (fuel : nat) (st : state) :
  sane st →
  ∃ st', release (S fuel) st = Ok tt st'
    ∧ log st' =
      log st ++
      Emit "_rpc" [VStr "release"; VObject []; VReleaseCb]
        :: map (fun l => Call l [VStr "release"; VObject []; VReleaseCb]) (listeners st "_rpc")
    ∧ pending st' = pending st ++ map (fun _ => VReleaseCb) (listeners st "_rpc")
    ∧ unchanged st st'.
Proof.
  intros Hs. eexists. split; [by apply release_sane|].
  split; [done|]. split; [|done].
  cbn [pending grow deliver snd]. by rewrite <- flat_map_single.
Qed.

Lemma X1_release_request_witness :
  sane example_subscribed ∧
  ∃ st', release 1 example_subscribed = Ok tt st'
    ∧ log st' =
      log example_subscribed ++
      Emit "_rpc" [VStr "release"; VObject []; VReleaseCb]
        :: map (fun l => Call l [VStr "release"; VObject []; VReleaseCb])
             (listeners example_subscribed "_rpc")
    ∧ pending st' = pending example_subscribed
                    ++ map (fun _ => VReleaseCb) (listeners example_subscribed "_rpc")
    ∧ unchanged example_subscribed st'.
Proof.
  split; [exact (live_sane _ example_subscribed_live)|].
  apply (X1_release_request 0 example_subscribed).
  exact (live_sane _ example_subscribed_live).
Defined.

Section FurtherConstruction.

(** The constructor up to its last statement, for any parent. *)
Lemma MediaObject_announces emitterOwn fuel id parent pipeline fields :
  (∀ k, k ∈ ["id"; "parent"; "pipeline"] → k ∉ map fst fields) →
  (∀ k, k ∈ map fst fields → (k ∉ proxy_members) ∧ (k ∉ map fst emitterOwn)) →
  ∃ o,
    MediaObject emitterOwn fuel id parent pipeline (VObject fields) blank =
    announce fuel parent
      (State o [("removeListener", [VOnRemoveListener]);
                ("newListener", [VOnNewListener])] ∅ [] []).
Proof.
  intros Hkeys Hnames.
  destruct (define_params_fresh (map fst emitterOwn) (VObject fields)
              (remove_dups (map fst fields)) []
              (map (fun kv => (kv.1, assigned kv.2)) emitterOwn) [] ∅ [] []
              (emitter_defined emitterOwn) (NoDup_remove_dups _))
    as (o1 & defs1 & Hrun1 & Hinv1 & Hdefs1); [done|].
  assert (Hf : ∀ k, k ∈ ["id"; "parent"; "pipeline"] → assoc k defs1 = None).
  { intros k Hk. rewrite Hdefs1, decide_False; [done|].
    rewrite elem_of_remove_dups. by apply Hkeys. }
  destruct (defineProperty_fresh _ defs1 "id" id o1
              [("removeListener", [VOnRemoveListener]); ("newListener", [VOnNewListener])]
              ∅ [] [] Hinv1) as (o2 & Hrun2 & Hinv2).
  { apply Hf. by_decide. }
  destruct (defineProperty_fresh _ _ "parent" parent o2
              [("removeListener", [VOnRemoveListener]); ("newListener", [VOnNewListener])]
              ∅ [] [] Hinv2) as (o3 & Hrun3 & Hinv3).
  { simpl. apply Hf. by_decide. }
  destruct (defineProperty_fresh _ _ "pipeline" (if truthy pipeline then pipeline else VThis) o3
              [("removeListener", [VOnRemoveListener]); ("newListener", [VOnNewListener])]
              ∅ [] [] Hinv3) as (o4 & Hrun4 & Hinv4).
  { simpl. apply Hf. by_decide. }
  exists o4. unfold MediaObject.
  erewrite bind_Ok; [|reflexivity].
  erewrite bind_Ok; cycle 1.
  { unfold bind, for_in, ret.
    rewrite shadows_none; [apply Hrun1|].
    intros k Hk. apply Hnames. by apply elem_of_remove_dups. }
  erewrite bind_Ok; [|reflexivity].
  erewrite bind_Ok; [|reflexivity].
  erewrite bind_Ok; [|reflexivity].
  erewrite bind_Ok; [|exact Hrun2].
  erewrite bind_Ok; [|exact Hrun3].
  erewrite bind_Ok; [|exact Hrun4].
  reflexivity.
Qed.

End FurtherConstruction.

(** X2: construction with a params object (whose property names are
    neither 'id', 'parent', 'pipeline', nor the name of a member the proxy
    uses, [proxy_members]) by an emitter
    parent installs exactly the two bookkeeping listeners, starts
    with an empty ledger, issues no request, and announces the new proxy to
    the parent exactly once, as [parent.emit('mediaObject', this)]; the
    proxy it returns is live. *)
Theorem X2_construction_shape (fuel : nat)
    (id pipeline : value) (p : nat) (fields : list (string * value)) :
  (∀ k, k ∈ ["id"; "parent"; "pipeline"] → k ∉ map fst fields) →
  (∀ k, k ∈ map fst fields → k ∉ proxy_members) →
  ∃ st, MediaObject node_emitterOwn fuel id (VRef p) pipeline (VObject fields) blank
        = Ok tt st
    ∧ _events st = [("removeListener", [VOnRemoveListener]);
                    ("newListener", [VOnNewListener])]
    ∧ tokens st = ∅
    ∧ pending st = []
    ∧ log st = [ParentEmit p "mediaObject" [VThis]]
    ∧ live st.
Proof.
  intros Hkeys Hmembers.
  destruct (MediaObject_runs node_emitterOwn fuel id p pipeline fields Hkeys
              (node_names _ Hmembers))
    as (o & defs & Hrun & _).
  eexists. split; [exact Hrun|]. do 4 (split; [done|]).
  split; [split|split]; try done. by_decide.
Qed.


Lemma X2_construction_shape_witness :
  (∀ k, k ∈ ["id"; "parent"; "pipeline"] →
        k ∉ map fst [("collectOnUnreferenced", VBool true)]) ∧
  (∀ k, k ∈ map fst [("collectOnUnreferenced", VBool true)] → k ∉ proxy_members) ∧
  ∃ st, MediaObject node_emitterOwn 2 (VStr "obj-1") (VRef 0) VUndefined
          (VObject [("collectOnUnreferenced", VBool true)]) blank = Ok tt st
    ∧ _events st = [("removeListener", [VOnRemoveListener]);
                    ("newListener", [VOnNewListener])]
    ∧ tokens st = ∅
    ∧ pending st = []
    ∧ log st = [ParentEmit 0 "mediaObject" [VThis]]
    ∧ live st.
Proof.
  split; [exact example_fields_free|]. split; [exact example_names|].
  exact (X2_construction_shape 2 (VStr "obj-1") VUndefined 0
           [("collectOnUnreferenced", VBool true)]
           example_fields_free example_names).
Defined.

(** X3: construction with a parent that is [undefined], [null] or another
    primitive (and a params object whose property names are neither 'id',
    'parent', 'pipeline', nor the name of a member the proxy uses, as 'on'
    or '_events') throws a TypeError at the announcement,
    the last statement of the constructor: nothing has been announced and
    no request issued. *)
Theorem X3_parent_not_an_emitter (fuel : nat)
    (id parent pipeline : value) (fields : list (string * value)) :
  is_primitive parent = true →
  (∀ k, k ∈ ["id"; "parent"; "pipeline"] → k ∉ map fst fields) →
  (∀ k, k ∈ map fst fields → k ∉ proxy_members) →
  ∃ msg st,
    MediaObject node_emitterOwn (S fuel) id parent pipeline (VObject fields) blank
    = Throw (TypeError msg) st
    ∧ log st = [] ∧ pending st = [].
Proof.
  intros Hprim Hkeys Hmembers.
  destruct (MediaObject_announces node_emitterOwn (S fuel) id parent pipeline fields Hkeys
              (node_names _ Hmembers))
    as (o & ->).
  destruct parent; try discriminate; eexists _, _; (split; [reflexivity|done]).
Qed.

Lemma X3_parent_not_an_emitter_witness :
  is_primitive VUndefined = true ∧
  (∀ k, k ∈ ["id"; "parent"; "pipeline"] →
        k ∉ map fst [("collectOnUnreferenced", VBool true)]) ∧
  (∀ k, k ∈ map fst [("collectOnUnreferenced", VBool true)] → k ∉ proxy_members) ∧
  ∃ msg st,
    MediaObject node_emitterOwn 1 (VStr "obj-1") VUndefined VUndefined
      (VObject [("collectOnUnreferenced", VBool true)]) blank
    = Throw (TypeError msg) st
    ∧ log st = [] ∧ pending st = [].
Proof.
  split; [reflexivity|]. split; [exact example_fields_free|].
  split; [exact example_names|].
  exact (X3_parent_not_an_emitter 0 (VStr "obj-1") VUndefined VUndefined
           [("collectOnUnreferenced", VBool true)] eq_refl example_fields_free
           example_names).
Defined.







(** X7: the event types 'newListener' and 'removeListener' are never
    subscribed remotely on a live proxy, although lines 72-73 do not name
    them: each has the constructor's own listener, so its listener count is
    never zero when the bookkeeping listeners look at it.  Adding or
    removing an application listener for them emits no request. *)
Theorem X7_bookkeeping_events_stay_local (fuel : nat) (st : state) (E : string) (f : nat) :
  live st → E = "newListener" ∨ E = "removeListener" →
  (∃ st', on (S (S fuel)) E (VFunction f) st = Ok tt st'
     ∧ rpc_emissions (log st') = rpc_emissions (log st))
  ∧ (∃ st', removeListener (S (S fuel)) E (VFunction f) st = Ok tt st'
     ∧ rpc_emissions (log st') = rpc_emissions (log st)).
Proof.
  intros Hlive HE. pose proof Hlive as (Hs & Hn & Hr).
  assert (Hh : handlers st E = 1) by (by destruct HE as [-> | ->]).
  pose proof (handlers_count st E Hh) as Hpos.
  split.
  - destruct (on_live fuel st E f Hlive) as (st' & Hon & _ & _ & _ & _ & _ & Hreq).
    exists st'. split; [done|]. rewrite Hreq. unfold out. cbn [arg nth].
    destruct (listenerCount st E); [lia|].
    cbn [Nat.eqb negb]. rewrite !orb_true_r. by rewrite app_nil_r.
  - destruct (EventEmitter.remove_last (VFunction f) (listeners st E)) as [ls'|] eqn:Hrm.
    + destruct (removeListener_found fuel st E f ls' Hs Hrm)
        as (st' & Hrun & _ & _ & _ & _ & Hlog).
      exists st'. split; [done|].
      set (st1 := with_listeners E ls' st) in *.
      assert (Hs1 : sane st1).
      { apply sane_with; [done|].
        eapply forallb_remove_last; [|done]. by apply sane_allowed. }
      assert (Hpos1 : 0 < listenerCount st1 E).
      { apply handlers_count. unfold st1. rewrite handlers_with; [done|done|].
        by apply remove_last_handlers in Hrm. }
      rewrite Hlog, rpc_app, rpc_removed_out_positive by done.
      by rewrite app_nil_r.
    + exists st. split; [by apply removeListener_absent|done].
Qed.

Lemma X7_bookkeeping_events_stay_local_witness :
  live example_proxy ∧ ("newListener" = "newListener" ∨ "newListener" = "removeListener") ∧
  (∃ st', on 2 "newListener" (VFunction 4) example_proxy = Ok tt st'
     ∧ rpc_emissions (log st') = rpc_emissions (log example_proxy))
  ∧ (∃ st', removeListener 2 "newListener" (VFunction 4) example_proxy = Ok tt st'
     ∧ rpc_emissions (log st') = rpc_emissions (log example_proxy)).
Proof.
  split; [exact example_proxy_live|]. split; [by left|].
  exact (X7_bookkeeping_events_stay_local 0 example_proxy "newListener" 4
           example_proxy_live (or_introl eq_refl)).
Defined.

(** X8: removing a function that is not registered for the event type does
    nothing at all: no 'removeListener' emission, hence no unsubscribe
    request, even when the event type has no listener. *)
Theorem X8_remove_unregistered (fuel : nat) (st : state) (E : string) (f : nat) :
  (∀ l, l ∈ listeners st E → l ≠ VFunction f) →
  removeListener fuel E (VFunction f) st = Ok tt st.
Proof.
  intros Hne. apply removeListener_absent; [done|]. by apply remove_last_absent.
Qed.

Lemma X8_remove_unregistered_witness :
  (∀ l, l ∈ listeners example_proxy "Error" → l ≠ VFunction 1) ∧
  removeListener 2 "Error" (VFunction 1) example_proxy = Ok tt example_proxy.
Proof.
  assert (H : ∀ l, l ∈ listeners example_proxy "Error" → l ≠ VFunction 1).
  { intros l Hl. by apply elem_of_nil in Hl. }
  split; [exact H|].
  exact (X8_remove_unregistered 2 example_proxy "Error" 1 H).
Defined.

Section FurtherCallbacks.

Lemma releaseCb_success fuel st error :
  sane st → truthy error = false →
  ∃ st', call (S (S (S fuel))) VReleaseCb [error] st = Ok VUndefined st'
    ∧ _events st' = [] ∧ tokens st' = tokens st ∧ own st' = own st.
Proof.
  intros Hs He. rewrite call_S. unfold releaseCb. cbn [arg nth]. rewrite He.
  unfold bind at 1.
  rewrite emit_deliver; [|by apply sane_opaque|done].
  set (st1 := grow _ _ st).
  destruct (removeAllListeners_sane fuel st1) as (st' & Hrun & Hev & Htok & Hown & _);
    [done|].
  unfold bind. rewrite Hrun. by exists st'.
Qed.

Lemma set_tokens_same st : set_tokens (tokens st) st = st.
Proof. by destruct st. Qed.

End FurtherCallbacks.

(** X9: a listener removed before its subscribe request is answered.  On a
    live proxy without listener and ledger entry for [E] (an event type
    other than 'release' and '_rpc' and not the name of a member of
    [Object.prototype]), adding and at once
    removing a listener emits the subscribe request and then an unsubscribe
    request whose [subscription] is [undefined], since the token has not
    arrived.  When afterwards the unsubscribe and then the subscribe
    complete successfully, the ledger holds the token although [E] has no
    listener. *)
Theorem X9_removed_before_subscribed (fuel : nat) (st : state) (E : string) (f : nat) :
  live st → E ≠ "release" → E ≠ "_rpc" → E ∉ object_prototype_names →
  listenerCount st E = 0 → tokens st !! E = None →
  ∃ st1 st2,
    on (S (S fuel)) E (VFunction f) st = Ok tt st1
    ∧ removeListener (S (S fuel)) E (VFunction f) st1 = Ok tt st2
    ∧ rpc_emissions (log st2) =
      rpc_emissions (log st) ++
      [Emit "_rpc" [VStr "subscribe"; VObject [("type", VStr E)]; VSubscribeCb E];
       Emit "_rpc" [VStr "unsubscribe"; VObject [("subscription", VUndefined)];
                    VUnsubscribeCb E]]
    ∧ listenerCount st2 E = 0
    ∧ ∀ e1 e2 token, truthy e1 = false → truthy e2 = false →
        ∃ st3 st4,
          call (S (S fuel)) (VUnsubscribeCb E) [e1] st2 = Ok VUndefined st3
          ∧ call (S (S fuel)) (VSubscribeCb E) [e2; token] st3 = Ok VUndefined st4
          ∧ tokens st4 !! E = Some token
          ∧ listenerCount st4 E = 0.
Proof.
  intros Hlive Hrel Hrpc _ Hzero Hnone.
  destruct (on_live fuel st E f Hlive)
    as (st1 & Hon & Hls & _ & Htok1 & _ & _ & Hreq1).
  destruct (on_keeps_live fuel st E f Hlive) as (st1' & Hon' & Hlive1).
  rewrite Hon in Hon'. injection Hon' as <-.
  assert (Hls1 : listeners st1 E = [VFunction f]).
  { rewrite Hls. unfold listenerCount in Hzero. apply length_zero_iff_nil in Hzero.
    by rewrite Hzero. }
  destruct (removeListener_last fuel st1 E f Hlive1 Hls1)
    as (st2 & Hrun & Hcount2 & Htok2 & Hreq2).
  exists st1, st2. split; [done|]. split; [done|]. split; [|split; [done|]].
  - rewrite Hreq2, Hreq1. unfold out. cbn [arg nth].
    apply String.eqb_neq in Hrel, Hrpc. rewrite Hrel, Hrpc, Hzero.
    cbn [orb negb Nat.eqb]. rewrite rpc_deliver.
    unfold token_of. rewrite Htok1, Hnone. cbn [default]. by rewrite <- app_assoc.
  - intros e1 e2 token He1 He2. eexists _, _.
    split; [by apply unsubscribeCb_success|].
    split; [by apply subscribeCb_success|].
    split; [apply lookup_insert_eq|done].
Qed.

Lemma X9_removed_before_subscribed_witness :
  live example_proxy ∧ "Error" ≠ "release" ∧ "Error" ≠ "_rpc"
  ∧ ("Error" ∉ object_prototype_names)
  ∧ listenerCount example_proxy "Error" = 0 ∧ tokens example_proxy !! "Error" = None ∧
  ∃ st1 st2,
    on 2 "Error" (VFunction 1) example_proxy = Ok tt st1
    ∧ removeListener 2 "Error" (VFunction 1) st1 = Ok tt st2
    ∧ rpc_emissions (log st2) =
      rpc_emissions (log example_proxy) ++
      [Emit "_rpc" [VStr "subscribe"; VObject [("type", VStr "Error")]; VSubscribeCb "Error"];
       Emit "_rpc" [VStr "unsubscribe"; VObject [("subscription", VUndefined)];
                    VUnsubscribeCb "Error"]]
    ∧ listenerCount st2 "Error" = 0
    ∧ ∀ e1 e2 token, truthy e1 = false → truthy e2 = false →
        ∃ st3 st4,
          call 2 (VUnsubscribeCb "Error") [e1] st2 = Ok VUndefined st3
          ∧ call 2 (VSubscribeCb "Error") [e2; token] st3 = Ok VUndefined st4
          ∧ tokens st4 !! "Error" = Some token
          ∧ listenerCount st4 "Error" = 0.
Proof.
  split; [exact example_proxy_live|]. split; [discriminate|]. split; [discriminate|].
  split; [exact Error_ordinary|].
  split; [reflexivity|]. split; [reflexivity|].
  exact (X9_removed_before_subscribed 0 example_proxy "Error" 1 example_proxy_live
           ltac:(discriminate) ltac:(discriminate) Error_ordinary eq_refl eq_refl).
Defined.

(** X10: once [release()] has completed successfully the proxy is inert.
    The completion removed the bookkeeping listeners with all the others, so
    adding a listener afterwards (for an event type not named like a member
    of [Object.prototype]) emits nothing, neither 'newListener' nor a
    subscribe request, and the listener is the only one of its event type;
    and the completion does not clear the ledger: the tokens of the
    subscriptions held at that moment stay in it. *)
Theorem X10_released_proxy_is_inert (fuel : nat) (st : state) (error : value)
    (E : string) (f : nat) :
  sane st → truthy error = false → E ∉ object_prototype_names →
  ∃ st' st'',
    call (S (S (S fuel))) VReleaseCb [error] st = Ok VUndefined st'
    ∧ tokens st' = tokens st
    ∧ on (S (S fuel)) E (VFunction f) st' = Ok tt st''
    ∧ log st'' = log st' ∧ pending st'' = pending st' ∧ tokens st'' = tokens st
    ∧ listeners st'' E = [VFunction f].
Proof.
  intros Hs He _.
  destruct (releaseCb_success fuel st error Hs He) as (st' & Hrun & Hev & Htok & _).
  pose proof (sane_empty st' Hev) as Hs'.
  assert (Hnone : ∀ T, listeners st' T = []).
  { intros T. unfold listeners. by rewrite Hev. }
  assert (Hon : on (S (S fuel)) E (VFunction f) st' =
                Ok tt (with_listeners E [VFunction f] st')).
  { rewrite on_sane by done. unfold on_out. rewrite !Hnone. cbn [fst snd app].
    by rewrite grow_nil. }
  exists st', (with_listeners E [VFunction f] st').
  split; [done|]. split; [done|]. split; [done|].
  split; [done|]. split; [done|]. split; [done|].
  by rewrite listeners_with_eq.
Qed.

Lemma X10_released_proxy_is_inert_witness :
  sane example_subscribed ∧ truthy VUndefined = false ∧
  ("Error" ∉ object_prototype_names) ∧
  ∃ st' st'',
    call 3 VReleaseCb [VUndefined] example_subscribed = Ok VUndefined st'
    ∧ tokens st' = tokens example_subscribed
    ∧ on 2 "Error" (VFunction 8) st' = Ok tt st''
    ∧ log st'' = log st' ∧ pending st'' = pending st'
    ∧ tokens st'' = tokens example_subscribed
    ∧ listeners st'' "Error" = [VFunction 8].
Proof.
  split; [exact (live_sane _ example_subscribed_live)|]. split; [reflexivity|].
  split; [exact Error_ordinary|].
  exact (X10_released_proxy_is_inert 0 example_subscribed VUndefined "Error" 8
           (live_sane _ example_subscribed_live) eq_refl Error_ordinary).
Defined.

(** X11: a failed subscribe or unsubscribe on a proxy nobody listens to for
    'error' does not fail silently: the completion callback throws, into the
    gateway that called it, the error itself when it is an [Error] and a
    TypeError otherwise.  With an 'error' listener on a well-formed proxy it
    returns normally, with [true], the result of [emit]. *)
Theorem X11_unheard_error_is_thrown (fuel : nat) (st : state) (E : string)
    (error token : value) :
  truthy error = true →
  (listeners st "error" = [] →
     let thrown :=
       if is_error error then error
       else TypeError ("Uncaught, unspecified " ++ dquote ++ "error" ++ dquote
                       ++ " event.")%string in
     call (S (S fuel)) (VSubscribeCb E) [error; token] st
       = Throw thrown (record (Emit "error" [error]) st)
     ∧ call (S (S fuel)) (VUnsubscribeCb E) [error] st
       = Throw thrown (record (Emit "error" [error]) st))
  ∧ (sane st → listeners st "error" ≠ [] →
     ∃ st', call (S (S fuel)) (VSubscribeCb E) [error; token] st = Ok (VBool true) st'
       ∧ call (S (S fuel)) (VUnsubscribeCb E) [error] st = Ok (VBool true) st').
Proof.
  intros He. split.
  - intros Hnone thrown. rewrite !call_S. unfold subscribeCb, unsubscribeCb.
    cbn [arg nth]. rewrite He. unfold bind.
    by rewrite !emit_error_unheard.
  - intros Hs Hsome.
    destruct (emit_error_sane fuel st error Hs) as (st' & _ & Hok & _).
    exists st'. rewrite !call_S. unfold subscribeCb, unsubscribeCb.
    cbn [arg nth]. rewrite He. split; by apply Hok.
Qed.

Lemma X11_unheard_error_is_thrown_witness :
  truthy (VError "Error" "timeout") = true ∧ listeners example_subscribed "error" = [] ∧
  call 2 (VSubscribeCb "Error") [VError "Error" "timeout"; VUndefined] example_subscribed
  = Throw (VError "Error" "timeout")
      (record (Emit "error" [VError "Error" "timeout"]) example_subscribed).
Proof.
  split; [reflexivity|]. split; [reflexivity|].
  destruct (X11_unheard_error_is_thrown 0 example_subscribed "Error"
              (VError "Error" "timeout") VUndefined eq_refl) as (Hthrow & _).
  exact (proj1 (Hthrow eq_refl)).
Defined.

(** X12: [callback2] reads [result.value] without looking at [result].  When
    an invoke completes without error and without a result ([undefined] or
    [null], or no second argument at all), [callback2] throws a TypeError
    and the caller's callback is never called; when the result is an object
    without [value], the callback is called with [(null, undefined)]. *)
Theorem X12_invoke_result_without_value (fuel : nat) (st : state) (cb : value)
    (args : list value) :
  truthy (arg 0 args) = false →
  (arg 1 args = VUndefined ∨ arg 1 args = VNull →
     ∃ msg, call (S fuel) (VInvokeCb cb) args st = Throw (TypeError msg) st)
  ∧ (∀ fields f, cb = VFunction f → arg 1 args = VObject fields →
     assoc "value" fields = None →
     ∃ st', call (S (S fuel)) (VInvokeCb cb) args st = Ok VUndefined st'
       ∧ log st' = log st ++ [Call cb [VNull; VUndefined]]
       ∧ unchanged st st').
Proof.
  intros He. split.
  - intros Hres. rewrite call_S. unfold invokeCb. rewrite He.
    destruct Hres as [-> | ->]; by eexists.
  - intros fields f -> Hres Hv. rewrite call_S. unfold invokeCb. rewrite He, Hres.
    unfold bind, get_member, ret. rewrite Hv. cbn [default].
    rewrite call_opaque. by eexists.
Qed.

Lemma X12_invoke_result_without_value_witness :
  truthy (arg 0 [VNull]) = false ∧ (arg 1 [VNull] = VUndefined ∨ arg 1 [VNull] = VNull) ∧
  ∃ msg, call 1 (VInvokeCb (VFunction 9)) [VNull] example_proxy
         = Throw (TypeError msg) example_proxy.
Proof.
  split; [reflexivity|]. split; [by left|].
  destruct (X12_invoke_result_without_value 0 example_proxy (VFunction 9) [VNull] eq_refl)
    as (Hthrow & _).
  exact (Hthrow (or_introl eq_refl)).
Defined.

(** X13: [invoke] tests its params with [if(params)], so params that are
    falsy, [null] and [undefined] but also [0], [false] and the empty
    string, are dropped: the request carries [{operation: m}] and no
    [operationParams]. *)
Theorem X13_falsy_params_are_dropped (fuel : nat) (st : state) (m : string)
    (p cb : value) :
  sane st → truthy p = false →
  ∃ st', invoke (S fuel) (VStr m) p cb st = Ok tt st'
    ∧ rpc_emissions (log st') =
      rpc_emissions (log st) ++
      [Emit "_rpc" [VStr "invoke"; VObject [("operation", VStr m)];
                    if truthy cb then VInvokeCb cb else VUndefined]].
Proof.
  intros Hs Hp.
  assert (Hfn : is_function p = false).
  { destruct (is_function p) eqn:Hf; [|done].
    apply function_truthy in Hf. congruence. }
  eexists. split; [by apply invoke_sane|].
  cbn [log grow]. rewrite rpc_app, rpc_deliver. unfold invoke_args. by rewrite Hp.
Qed.

Lemma X13_falsy_params_are_dropped_witness :
  sane example_proxy ∧ truthy (VNum 0) = false ∧
  ∃ st', invoke 1 (VStr "setVolume") (VNum 0) (VFunction 9) example_proxy = Ok tt st'
    ∧ rpc_emissions (log st') =
      rpc_emissions (log example_proxy) ++
      [Emit "_rpc" [VStr "invoke"; VObject [("operation", VStr "setVolume")];
                    VInvokeCb (VFunction 9)]].
Proof.
  split; [exact (live_sane _ example_proxy_live)|]. split; [reflexivity|].
  exact (X13_falsy_params_are_dropped 0 example_proxy "setVolume" (VNum 0) (VFunction 9)
           (live_sane _ example_proxy_live) eq_refl).
Defined.



(** X15: the subscribe request of a first listener (for an event type other
    than 'release' and '_rpc' and not named like a member of
    [Object.prototype]) is handed, with the same
    completion callback, to every '_rpc' listener registered at that moment.
    With no '_rpc' listener the request is emitted to nobody: no callback is
    held outside, so the ledger entry will never be made. *)
Theorem X15_request_per_gateway_listener (fuel : nat) (st : state) (E : string) (f : nat) :
  live st → E ≠ "release" → E ≠ "_rpc" → E ∉ object_prototype_names →
  listenerCount st E = 0 →
  ∃ st', on (S (S fuel)) E (VFunction f) st = Ok tt st'
    ∧ pending st' = pending st ++ map (fun _ => VSubscribeCb E) (listeners st "_rpc")
    ∧ (listeners st "_rpc" = [] → pending st' = pending st).
Proof.
  intros Hlive Hrel Hrpc _ Hzero.
  destruct (on_live fuel st E f Hlive) as (st' & Hon & _ & _ & _ & _ & Hpend & _).
  exists st'. split; [done|].
  assert (Hp : pending st' = pending st ++ map (fun _ => VSubscribeCb E) (listeners st "_rpc")).
  { rewrite Hpend, pend_on_out by done. unfold out. cbn [arg nth].
    apply String.eqb_neq in Hrel, Hrpc. rewrite Hrel, Hrpc, Hzero.
    cbn [orb negb Nat.eqb deliver snd]. by rewrite <- flat_map_single. }
  split; [done|]. intros Hnone. rewrite Hp, Hnone. apply app_nil_r.
Qed.

Lemma X15_request_per_gateway_listener_witness :
  live example_proxy ∧ "Error" ≠ "release" ∧ "Error" ≠ "_rpc"
  ∧ ("Error" ∉ object_prototype_names)
  ∧ listenerCount example_proxy "Error" = 0 ∧
  ∃ st', on 2 "Error" (VFunction 1) example_proxy = Ok tt st'
    ∧ pending st' = pending example_proxy
                    ++ map (fun _ => VSubscribeCb "Error") (listeners example_proxy "_rpc")
    ∧ (listeners example_proxy "_rpc" = [] → pending st' = pending example_proxy).
Proof.
  split; [exact example_proxy_live|]. split; [discriminate|]. split; [discriminate|].
  split; [exact Error_ordinary|]. split; [reflexivity|].
  exact (X15_request_per_gateway_listener 0 example_proxy "Error" 1 example_proxy_live
           ltac:(discriminate) ltac:(discriminate) Error_ordinary eq_refl).
Defined.

(** ** What a successful release sends *)

Section ReleaseRequests.

Lemma allowed_same type l : allowed type l = true → same_function l l = true.
Proof. destruct l; try done. intros _. apply Nat.eqb_refl. Qed.

Lemma remove_last_snoc l init :
  same_function l l = true → EventEmitter.remove_last l (init ++ [l]) = Some init.
Proof.
  intros Hl. unfold EventEmitter.remove_last. rewrite rev_app_distr. simpl.
  rewrite Hl. simpl. by rewrite rev_involutive.
Qed.

(** Removing a 'removeListener' listener issues no request. *)
Lemma rpc_removed_out_self st l :
  sane st → rpc_emissions (removed_out st "removeListener" l).1 = [].
Proof.
  intros Hs. destruct (listeners st "removeListener") as [|h hs] eqn:Hls.
  - unfold removed_out. by rewrite Hls.
  - apply rpc_removed_out_positive; [done|]. unfold listenerCount. rewrite Hls. simpl. lia.
Qed.

Lemma remove_each_exact fuel E ls :
  ∀ st, sane st → listeners st E = ls →
  ∃ st', EventEmitter.remove_each (call (S (S fuel))) E (rev ls) st = Ok tt st'
    ∧ emptied E st st'
    ∧ (E ≠ "removeListener" → handlers st "removeListener" = 1 →
       rpc_emissions (log st') =
       rpc_emissions (log st) ++
       match ls with [] => [] | _ => [unsubscribe_request st E] end)
    ∧ (E = "removeListener" → rpc_emissions (log st') = rpc_emissions (log st)).
Proof.
  induction ls as [|l init IH] using rev_ind; intros st Hs Hls.
  - exists st. split; [done|]. split; [done|].
    split; intros; by rewrite ?app_nil_r.
  - rewrite rev_app_distr. cbn [rev app EventEmitter.remove_each].
    assert (Hal : forallb (allowed E) (init ++ [l]) = true).
    { rewrite <- Hls. by apply sane_allowed. }
    rewrite forallb_app in Hal. apply andb_true_iff in Hal as [Hinit Hl].
    cbn [forallb] in Hl. rewrite andb_true_r in Hl.
    assert (Hrm : EventEmitter.remove_last l (listeners st E) = Some init).
    { rewrite Hls. apply remove_last_snoc. by eapply allowed_same. }
    pose proof (removeListener_sane fuel st E l init Hs
                  (allowed_function E l Hl) Hrm) as Hrun.
    cbn zeta in Hrun. unfold removeListener in Hrun.
    set (st0 := with_listeners E init st) in *.
    assert (Hs0 : sane st0) by by apply sane_with.
    assert (Hls0 : listeners st0 E = init) by by apply listeners_with_eq.
    set (st1 := grow _ _ st0) in *.
    destruct (IH st1) as (st' & Hrest & (Hs' & Htok' & Hnil' & Hothers') & Hreq' & Hself');
      [done|done|].
    exists st'. split; [unfold bind; by rewrite Hrun|].
    split.
    { split; [done|]. split; [done|]. split; [done|].
      intros E' HE'. rewrite Hothers' by done.
      change (listeners st1 E') with (listeners st0 E').
      unfold st0. by rewrite listeners_with_ne. }
    split.
    + intros HE Hh.
      assert (Hh0 : handlers st0 "removeListener" = 1).
      { unfold handlers, st0. by rewrite listeners_with_ne. }
      rewrite Hreq' by done.
      change (log st1) with (log st ++ (removed_out st0 E l).1).
      rewrite rpc_app, rpc_removed_out by done.
      unfold out. cbn [arg nth]. unfold listenerCount. rewrite Hls0.
      rewrite <- app_assoc. f_equal.
      destruct init as [|x init'].
      * cbn [length Nat.eqb]. rewrite rpc_deliver.
        destruct l; by rewrite app_nil_r.
      * cbn [length Nat.eqb fst]. cbn [rpc_emissions filter list_filter app].
        destruct (init' ++ [l]) eqn:Hcase.
        { by destruct init'. }
        done.
    + intros ->. rewrite Hself' by done.
      change (log st1) with (log st ++ (removed_out st0 "removeListener" l).1).
      by rewrite rpc_app, rpc_removed_out_self, app_nil_r.
Qed.

End ReleaseRequests.

Section ReleaseRequestsByKey.

Lemma emptied_handlers E st st' :
  E ≠ "removeListener" → emptied E st st' →
  handlers st' "removeListener" = handlers st "removeListener".
Proof. intros HE (_ & _ & _ & Hothers). unfold handlers. by rewrite Hothers. Qed.

(** [removeAllListeners(E)] while 'removeListener' has its bookkeeping
    listener: one unsubscribe request if [E] had listeners. *)
Lemma removeAllListeners_of_exact fuel E st :
  sane st → handlers st "removeListener" = 1 → E ≠ "removeListener" →
  ∃ st', EventEmitter.removeAllListeners_of (call (S (S fuel))) E st = Ok tt st'
    ∧ emptied E st st'
    ∧ rpc_emissions (log st') =
      rpc_emissions (log st) ++
      (if loses_listeners st E then [unsubscribe_request st E] else []).
Proof.
  intros Hs Hh HE. unfold EventEmitter.removeAllListeners_of. unfold bind at 1. unfold get.
  destruct (listeners st "removeListener") as [|h hs] eqn:Hrem.
  { unfold handlers in Hh. by rewrite Hrem in Hh. }
  destruct (remove_each_exact fuel E (listeners st E) st Hs eq_refl)
    as (st1 & Hrun & (Hs1 & Htok1 & Hnil1 & Hothers1) & Hreq1 & _).
  unfold bind. rewrite Hrun. eexists. split; [reflexivity|].
  split.
  { split; [by apply sane_with|]. split; [done|].
    split; [by apply listeners_with_eq|].
    intros E' HE'. fold (with_listeners E [] st1).
    rewrite listeners_with_ne by done. by apply Hothers1. }
  cbn [log set_events]. rewrite Hreq1 by done. unfold loses_listeners.
  apply String.eqb_neq in HE. rewrite HE. cbn [negb].
  by destruct (listeners st E).
Qed.

(** The same for 'removeListener' itself, on any well-formed proxy: no
    request. *)
Lemma removeAllListeners_of_self fuel st :
  sane st →
  ∃ st', EventEmitter.removeAllListeners_of (call (S (S fuel))) "removeListener" st
         = Ok tt st'
    ∧ tokens st' = tokens st
    ∧ rpc_emissions (log st') = rpc_emissions (log st).
Proof.
  intros Hs. unfold EventEmitter.removeAllListeners_of. unfold bind at 1. unfold get.
  destruct (listeners st "removeListener") as [|h hs] eqn:Hrem.
  - eexists. split; [reflexivity|]. done.
  - rewrite <- Hrem.
    destruct (remove_each_exact fuel "removeListener" (listeners st "removeListener") st
                Hs eq_refl)
      as (st1 & Hrun & (_ & Htok1 & _) & _ & Hreq1).
    unfold bind. rewrite Hrun. eexists. split; [reflexivity|].
    split; [done|]. cbn [log set_events]. by apply Hreq1.
Qed.

Lemma released_ext st st' keys :
  tokens st' = tokens st →
  (∀ E, E ∈ keys → listeners st' E = listeners st E) →
  map (unsubscribe_request st') (filter (fun E => loses_listeners st' E = true) keys) =
  map (unsubscribe_request st) (filter (fun E => loses_listeners st E = true) keys).
Proof.
  intros Htok Hls. induction keys as [|k keys IH]; [done|].
  assert (Hk : loses_listeners st' k = loses_listeners st k).
  { unfold loses_listeners. rewrite Hls; [done|left]. }
  assert (IH' := IH (fun E HE => Hls E (list_elem_of_further _ _ _ HE))).
  rewrite !filter_cons, Hk.
  destruct (decide (loses_listeners st k = true)); [|done].
  cbn [map]. rewrite IH'. f_equal. unfold unsubscribe_request, token_of. by rewrite Htok.
Qed.

(** The loop of [removeAllListeners()] over distinct keys. *)
Lemma remove_keys_exact fuel keys :
  ∀ st, NoDup keys → sane st → handlers st "removeListener" = 1 →
  ∃ st', EventEmitter.remove_keys (call (S (S fuel))) keys st = Ok tt st'
    ∧ sane st' ∧ tokens st' = tokens st
    ∧ (∀ E, E ∉ keys → listeners st' E = listeners st E)
    ∧ rpc_emissions (log st') =
      rpc_emissions (log st) ++
      map (unsubscribe_request st) (filter (fun E => loses_listeners st E = true) keys).
Proof.
  induction keys as [|key keys IH]; intros st Hnd Hs Hh.
  - exists st. split; [done|]. split; [done|]. split; [done|]. split; [done|].
    by rewrite app_nil_r.
  - apply NoDup_cons in Hnd as [Hkey Hnd].
    cbn [EventEmitter.remove_keys]. unfold bind at 1.
    assert (Hstep : ∃ st1,
      (if String.eqb key "removeListener" then ret tt
       else let* st0 := get in
            match assoc key (_events st0) with
            | None => ret tt
            | Some _ => EventEmitter.removeAllListeners_of (call (S (S fuel))) key
            end) st = Ok tt st1
      ∧ sane st1 ∧ handlers st1 "removeListener" = 1 ∧ tokens st1 = tokens st
      ∧ (∀ E, key ≠ E → listeners st1 E = listeners st E)
      ∧ rpc_emissions (log st1) =
        rpc_emissions (log st) ++
        (if loses_listeners st key then [unsubscribe_request st key] else [])).
    { destruct (String.eqb_spec key "removeListener") as [->|Hne].
      - exists st. split; [done|]. do 4 (split; [done|]).
        unfold loses_listeners. cbn [String.eqb Ascii.eqb Bool.eqb negb].
        destruct (listeners st "removeListener"); by rewrite app_nil_r.
      - unfold bind, get. destruct (assoc key (_events st)) as [ls|] eqn:Hassoc.
        + destruct (removeAllListeners_of_exact fuel key st Hs Hh Hne)
            as (st1 & Hrun & Hem & Hreq).
          exists st1. split; [done|].
          pose proof (emptied_handlers key st st1 Hne Hem) as Hh1.
          destruct Hem as (Hs1 & Htok1 & _ & Hothers1).
          split; [done|]. split; [congruence|]. by split.
        + exists st. split; [done|]. do 4 (split; [done|]).
          unfold loses_listeners, listeners. rewrite Hassoc. cbn [default].
          by rewrite app_nil_r. }
    destruct Hstep as (st1 & Hrun1 & Hs1 & Hh1 & Htok1 & Hothers1 & Hreq1).
    rewrite Hrun1.
    destruct (IH st1 Hnd Hs1 Hh1) as (st2 & Hrun2 & Hs2 & Htok2 & Hothers2 & Hreq2).
    exists st2. split; [done|]. split; [done|]. split; [congruence|].
    split.
    { intros E HE. apply not_elem_of_cons in HE as [HEk HE].
      rewrite Hothers2 by done. by apply Hothers1. }
    rewrite Hreq2, Hreq1, <- app_assoc.
    rewrite (released_ext st st1 keys Htok1).
    2:{ intros E HE. apply Hothers1. intros ->. done. }
    rewrite filter_cons.
    destruct (loses_listeners st key) eqn:Hk.
    + by rewrite decide_True.
    + by rewrite decide_False.
Qed.

End ReleaseRequestsByKey.

(** X16: what a successful release sends.  [removeAllListeners()] removes
    the listeners one by one with the 'removeListener' listener of line 48
    still installed, so on a live proxy the completion of [release()] emits
    one unsubscribe request for every event type that has listeners,
    'newListener' and '_rpc' included and 'removeListener' excepted, in the
    order of the listener table, each with the token the ledger holds for
    the event type ([undefined] if none), and no other request.  The event
    types that have listeners are plain keys ([plain_table]): none is named
    like a member of [Object.prototype], none is a numeral, so that the
    order of the table is the order of insertion. *)
Theorem X16_release_unsubscribes (fuel : nat) (st : state) (error : value) :
  live st → plain_table st → truthy error = false →
  ∃ st', call (S (S (S fuel))) VReleaseCb [error] st = Ok VUndefined st'
    ∧ rpc_emissions (log st') =
      rpc_emissions (log st) ++ map (unsubscribe_request st) (released_keys st)
    ∧ tokens st' = tokens st.
Proof.
  intros (Hs & Hn & Hr) _ He. rewrite call_S. unfold releaseCb. cbn [arg nth]. rewrite He.
  unfold bind at 1.
  rewrite emit_deliver; [|by apply sane_opaque|done].
  set (st1 := grow _ _ st).
  assert (Hlog1 : rpc_emissions (log st1) = rpc_emissions (log st)).
  { unfold st1, deliver. cbn [log grow fst]. rewrite rpc_app.
    unfold rpc_emissions at 2. rewrite filter_cons_False by (simpl; done).
    fold (rpc_emissions (map (fun l => Call l []) (listeners st "release"))).
    by rewrite rpc_calls, app_nil_r. }
  unfold bind at 1. unfold EventEmitter.removeAllListeners. unfold bind at 1. unfold get.
  change (listeners st1 "removeListener") with (listeners st "removeListener").
  destruct (listeners st "removeListener") as [|h hs] eqn:Hrem.
  { unfold handlers in Hr. by rewrite Hrem in Hr. }
  destruct (remove_keys_exact fuel (map fst (_events st1)) st1 (proj1 Hs) Hs Hr)
    as (st2 & Hrun2 & Hs2 & Htok2 & _ & Hreq2).
  destruct (removeAllListeners_of_self fuel st2 Hs2) as (st3 & Hrun3 & Htok3 & Hreq3).
  unfold bind. rewrite Hrun2, Hrun3. eexists. split; [reflexivity|].
  split; [|cbn [tokens set_events]; by rewrite Htok3, Htok2].
  cbn [log set_events]. rewrite Hreq3, Hreq2, Hlog1. done.
Qed.

Lemma X16_release_unsubscribes_witness :
  live example_subscribed ∧ plain_table example_subscribed ∧ truthy VUndefined = false ∧
  ∃ st', call 3 VReleaseCb [VUndefined] example_subscribed = Ok VUndefined st'
    ∧ rpc_emissions (log st') =
      rpc_emissions (log example_subscribed)
      ++ map (unsubscribe_request example_subscribed) ["newListener"; "_rpc"; "Error"]
    ∧ tokens st' = tokens example_subscribed.
Proof.
  split; [exact example_subscribed_live|]. split; [reflexivity|].
  split; [reflexivity|].
  exact (X16_release_unsubscribes 0 example_subscribed VUndefined
           example_subscribed_live eq_refl eq_refl).
Defined.

(** ** Which of these requests reach the gateway *)

Section ReleaseDelivery.

Lemma callbacks_listener_args E l :
  is_rpc_callback l = false → callbacks [VStr E; l] = [].
Proof.
  intros Hl. unfold callbacks.
  rewrite filter_cons_False by (simpl; done).
  rewrite filter_cons_False by (rewrite Hl; done). done.
Qed.

Lemma allowed_not_callback type l : allowed type l = true → is_rpc_callback l = false.
Proof. by destruct l. Qed.

Lemma pend_removed_out_any st E l :
  sane st → handlers st "removeListener" = 1 → is_rpc_callback l = false →
  (removed_out st E l).2 = (out st VOnRemoveListener [VStr E; l]).2.
Proof.
  intros Hs Hr Hl. unfold removed_out.
  destruct (listeners st "removeListener") as [|h hs] eqn:Hls.
  { unfold handlers in Hr. by rewrite Hls in Hr. }
  unfold emit_out. rewrite Hls. cbn [snd].
  apply pend_flat_one; [by apply callbacks_listener_args| |].
  - intros x Hx. apply allowed_removed.
    pose proof (sane_allowed st "removeListener" Hs) as Hal. rewrite Hls in Hal.
    rewrite forallb_forall in Hal. apply Hal. by apply list_elem_of_In.
  - unfold handlers in Hr. by rewrite Hls in Hr.
Qed.

Lemma pend_removed_out_quiet st E l :
  sane st → is_rpc_callback l = false →
  0 < listenerCount st E ∨ E = "removeListener" →
  (removed_out st E l).2 = [].
Proof.
  intros Hs Hl Hcase. unfold removed_out.
  destruct (listeners st "removeListener") as [|h hs] eqn:Hls; [done|].
  assert (Hpos : 0 < listenerCount st E).
  { destruct Hcase as [?| ->]; [done|]. unfold listenerCount. rewrite Hls. simpl. lia. }
  unfold emit_out. rewrite Hls. cbn [snd].
  apply pend_flat_none. intros x Hx.
  pose proof (sane_allowed st "removeListener" Hs) as Hal. rewrite Hls in Hal.
  rewrite forallb_forall in Hal. apply list_elem_of_In, Hal in Hx.
  destruct x; try discriminate.
  - by apply callbacks_listener_args.
  - unfold out. cbn [arg nth]. destruct (listenerCount st E); [lia|done].
Qed.

Lemma remove_each_pending fuel E ls :
  ∀ st, sane st → listeners st E = ls →
  ∃ st', EventEmitter.remove_each (call (S (S fuel))) E (rev ls) st = Ok tt st'
    ∧ emptied E st st'
    ∧ (E ≠ "removeListener" → handlers st "removeListener" = 1 →
       pending st' =
       pending st ++
       match ls with
       | [] => []
       | _ => unsubscribe_callbacks
                (if String.eqb E "_rpc" then [] else listeners st "_rpc") E
       end)
    ∧ (E = "removeListener" → pending st' = pending st).
Proof.
  induction ls as [|l init IH] using rev_ind; intros st Hs Hls.
  - exists st. split; [done|]. split; [done|].
    split; intros; by rewrite ?app_nil_r.
  - rewrite rev_app_distr. cbn [rev app EventEmitter.remove_each].
    assert (Hal : forallb (allowed E) (init ++ [l]) = true).
    { rewrite <- Hls. by apply sane_allowed. }
    rewrite forallb_app in Hal. apply andb_true_iff in Hal as [Hinit Hl].
    cbn [forallb] in Hl. rewrite andb_true_r in Hl.
    pose proof (allowed_not_callback E l Hl) as Hncb.
    assert (Hrm : EventEmitter.remove_last l (listeners st E) = Some init).
    { rewrite Hls. apply remove_last_snoc. by eapply allowed_same. }
    pose proof (removeListener_sane fuel st E l init Hs
                  (allowed_function E l Hl) Hrm) as Hrun.
    cbn zeta in Hrun. unfold removeListener in Hrun.
    set (st0 := with_listeners E init st) in *.
    assert (Hs0 : sane st0) by by apply sane_with.
    assert (Hls0 : listeners st0 E = init) by by apply listeners_with_eq.
    set (st1 := grow _ _ st0) in *.
    destruct (IH st1) as (st' & Hrest & (Hs' & Htok' & Hnil' & Hothers') & Hpend' & Hself');
      [done|done|].
    exists st'. split; [unfold bind; by rewrite Hrun|].
    split.
    { split; [done|]. split; [done|]. split; [done|].
      intros E' HE'. rewrite Hothers' by done.
      change (listeners st1 E') with (listeners st0 E').
      unfold st0. by rewrite listeners_with_ne. }
    split.
    + intros HE Hh.
      assert (Hh0 : handlers st0 "removeListener" = 1).
      { unfold handlers, st0. by rewrite listeners_with_ne. }
      rewrite Hpend' by done.
      change (pending st1) with (pending st ++ (removed_out st0 E l).2).
      rewrite <- app_assoc. f_equal.
      destruct init as [|x init'].
      * rewrite pend_removed_out_any by done.
        unfold out. cbn [arg nth]. unfold listenerCount. rewrite Hls0.
        cbn [length Nat.eqb deliver snd]. rewrite app_nil_r.
        assert (Hcb : callbacks [VStr "unsubscribe";
                        VObject [("subscription", token_of st0 E)]; VUnsubscribeCb E]
                      = [VUnsubscribeCb E]) by done.
        rewrite Hcb, flat_map_single. unfold unsubscribe_callbacks.
        destruct (String.eqb_spec E "_rpc") as [->|Hne].
        -- unfold st0. rewrite listeners_with_eq by done. by destruct l.
        -- unfold st0. rewrite listeners_with_ne by done. by destruct l.
      * rewrite pend_removed_out_quiet; [|done|done|].
        2:{ left. unfold listenerCount. rewrite Hls0. simpl. lia. }
        cbn [app].
        change (listeners st1 "_rpc") with (listeners st0 "_rpc").
        destruct (String.eqb_spec E "_rpc") as [->|Hne].
        -- by destruct (init' ++ [l]).
        -- unfold st0. rewrite listeners_with_ne by done.
           by destruct (init' ++ [l]).
    + intros ->. rewrite Hself' by done.
      change (pending st1) with (pending st ++ (removed_out st0 "removeListener" l).2).
      rewrite pend_removed_out_quiet; [apply app_nil_r|done|done|by right].
Qed.

End ReleaseDelivery.

Section ReleaseDeliveryByKey.

Lemma removeAllListeners_of_pending fuel E st :
  sane st → handlers st "removeListener" = 1 → E ≠ "removeListener" →
  ∃ st', EventEmitter.removeAllListeners_of (call (S (S fuel))) E st = Ok tt st'
    ∧ emptied E st st'
    ∧ pending st' =
      pending st ++
      (if loses_listeners st E
       then unsubscribe_callbacks
              (if String.eqb E "_rpc" then [] else listeners st "_rpc") E
       else []).
Proof.
  intros Hs Hh HE. unfold EventEmitter.removeAllListeners_of. unfold bind at 1. unfold get.
  destruct (listeners st "removeListener") as [|h hs] eqn:Hrem.
  { unfold handlers in Hh. by rewrite Hrem in Hh. }
  destruct (remove_each_pending fuel E (listeners st E) st Hs eq_refl)
    as (st1 & Hrun & (Hs1 & Htok1 & Hnil1 & Hothers1) & Hpend1 & _).
  unfold bind. rewrite Hrun. eexists. split; [reflexivity|].
  split.
  { split; [by apply sane_with|]. split; [done|].
    split; [by apply listeners_with_eq|].
    intros E' HE'. fold (with_listeners E [] st1).
    rewrite listeners_with_ne by done. by apply Hothers1. }
  cbn [pending set_events]. rewrite Hpend1 by done. unfold loses_listeners.
  apply String.eqb_neq in HE. rewrite HE. cbn [negb].
  by destruct (listeners st E).
Qed.

Lemma removeAllListeners_of_self_pending fuel st :
  sane st →
  ∃ st', EventEmitter.removeAllListeners_of (call (S (S fuel))) "removeListener" st
         = Ok tt st'
    ∧ pending st' = pending st.
Proof.
  intros Hs. unfold EventEmitter.removeAllListeners_of. unfold bind at 1. unfold get.
  destruct (listeners st "removeListener") as [|h hs] eqn:Hrem.
  - eexists. split; [reflexivity|]. done.
  - rewrite <- Hrem.
    destruct (remove_each_pending fuel "removeListener" (listeners st "removeListener") st
                Hs eq_refl)
      as (st1 & Hrun & _ & _ & Hpend1).
    unfold bind. rewrite Hrun. eexists. split; [reflexivity|].
    cbn [pending set_events]. by apply Hpend1.
Qed.

Lemma loses_ext st st' E :
  listeners st' E = listeners st E → loses_listeners st' E = loses_listeners st E.
Proof. intros H. unfold loses_listeners. by rewrite H. Qed.

Lemma filter_loses_ext st st' (keys : list string) :
  (∀ E, E ∈ keys → listeners st' E = listeners st E) →
  filter (fun E => loses_listeners st' E = true) keys =
  filter (fun E => loses_listeners st E = true) keys.
Proof.
  intros Hls. induction keys as [|k keys IH]; [done|].
  rewrite !filter_cons, (loses_ext st st' k) by (apply Hls; left).
  rewrite IH; [done|]. intros E HE. apply Hls. by right.
Qed.

Lemma keys_before_subset stop keys E : E ∈ keys_before stop keys → E ∈ keys.
Proof.
  induction keys as [|k keys IH]; simpl; [done|].
  destruct (String.eqb k stop); [by intros ?%elem_of_nil|].
  intros [->|H]%elem_of_cons; [left|right; by apply IH].
Qed.

(** The loop of [removeAllListeners()]: the requests for the keys that come
    before '_rpc' are handed to the '_rpc' listeners. *)
Lemma remove_keys_pending fuel keys :
  ∀ st, NoDup keys → sane st → handlers st "removeListener" = 1 →
  ∃ st', EventEmitter.remove_keys (call (S (S fuel))) keys st = Ok tt st'
    ∧ sane st'
    ∧ pending st' =
      pending st ++
      flat_map (unsubscribe_callbacks (listeners st "_rpc"))
        (filter (fun E => loses_listeners st E = true) (keys_before "_rpc" keys)).
Proof.
  induction keys as [|key keys IH]; intros st Hnd Hs Hh.
  - exists st. split; [done|]. split; [done|]. by rewrite app_nil_r.
  - apply NoDup_cons in Hnd as [Hkey Hnd].
    cbn [EventEmitter.remove_keys]. unfold bind at 1.
    assert (Hstep : ∃ st1,
      (if String.eqb key "removeListener" then ret tt
       else let* st0 := get in
            match assoc key (_events st0) with
            | None => ret tt
            | Some _ => EventEmitter.removeAllListeners_of (call (S (S fuel))) key
            end) st = Ok tt st1
      ∧ sane st1 ∧ handlers st1 "removeListener" = 1
      ∧ (∀ E, key ≠ E → listeners st1 E = listeners st E)
      ∧ (key = "_rpc" → listeners st1 "_rpc" = [])
      ∧ pending st1 =
        pending st ++
        (if loses_listeners st key
         then unsubscribe_callbacks
                (if String.eqb key "_rpc" then [] else listeners st "_rpc") key
         else [])).
    { destruct (String.eqb_spec key "removeListener") as [->|Hne].
      - exists st. split; [done|]. do 3 (split; [done|]). split; [done|].
        unfold loses_listeners. cbn [String.eqb Ascii.eqb Bool.eqb negb].
        destruct (listeners st "removeListener"); by rewrite app_nil_r.
      - unfold bind, get. destruct (assoc key (_events st)) as [ls|] eqn:Hassoc.
        + destruct (removeAllListeners_of_pending fuel key st Hs Hh Hne)
            as (st1 & Hrun & Hem & Hpend).
          exists st1. split; [done|].
          pose proof (emptied_handlers key st st1 Hne Hem) as Hh1.
          destruct Hem as (Hs1 & Htok1 & Hnil1 & Hothers1).
          split; [done|]. split; [congruence|]. split; [done|].
          split; [|done]. by intros ->.
        + exists st. split; [done|]. do 3 (split; [done|]).
          split.
          { intros ->. unfold listeners. by rewrite Hassoc. }
          unfold loses_listeners, listeners. rewrite Hassoc. cbn [default].
          by rewrite app_nil_r. }
    destruct Hstep as (st1 & Hrun1 & Hs1 & Hh1 & Hothers1 & Hgone & Hpend1).
    rewrite Hrun1.
    destruct (IH st1 Hnd Hs1 Hh1) as (st2 & Hrun2 & Hs2 & Hpend2).
    exists st2. split; [done|]. split; [done|].
    rewrite Hpend2, Hpend1, <- app_assoc. f_equal.
    cbn [keys_before].
    destruct (String.eqb_spec key "_rpc") as [Heq|Hne].
    + subst key. cbn [filter list_filter flat_map].
      assert (Hnil : flat_map (unsubscribe_callbacks (listeners st1 "_rpc"))
                       (filter (fun E => loses_listeners st1 E = true)
                          (keys_before "_rpc" keys)) = []).
      { rewrite (Hgone eq_refl). unfold unsubscribe_callbacks. cbn [map].
        apply flat_map_nil. }
      rewrite Hnil, app_nil_r. unfold unsubscribe_callbacks. cbn [map].
      by destruct (loses_listeners st "_rpc").
    + rewrite (Hothers1 "_rpc") by done.
      rewrite (filter_loses_ext st st1).
      2:{ intros E HE. apply Hothers1. intros ->.
          apply keys_before_subset in HE. done. }
      rewrite filter_cons.
      destruct (loses_listeners st key) eqn:Hk.
      * rewrite decide_True by done. cbn [flat_map]. done.
      * rewrite decide_False by done. done.
Qed.

End ReleaseDeliveryByKey.

(** X17: which of the unsubscribe requests of a successful release reach
    the gateway.  A request is handed to the '_rpc' listeners that are still
    registered when it is emitted, so only the requests for the event types
    that come before '_rpc' in the listener table reach them; the requests
    for '_rpc' itself and for every event type after it are emitted to
    nobody.  On a proxy whose gateway attached first, the one completion
    callback handed out is that of the unsubscribe for 'newListener'.  The
    event types that have listeners are plain keys ([plain_table]), so that
    the order of the table is the order of insertion. *)
Theorem X17_release_requests_reaching_gateway (fuel : nat) (st : state) (error : value) :
  live st → plain_table st → truthy error = false →
  ∃ st', call (S (S (S fuel))) VReleaseCb [error] st = Ok VUndefined st'
    ∧ pending st' =
      pending st ++
      flat_map (unsubscribe_callbacks (listeners st "_rpc"))
        (filter (fun E => loses_listeners st E = true)
           (keys_before "_rpc" (map fst (_events st)))).
Proof.
  intros (Hs & Hn & Hr) _ He. rewrite call_S. unfold releaseCb. cbn [arg nth]. rewrite He.
  unfold bind at 1.
  rewrite emit_deliver; [|by apply sane_opaque|done].
  set (st1 := grow _ _ st).
  assert (Hpend1 : pending st1 = pending st).
  { unfold st1, deliver. cbn [pending grow snd].
    change (callbacks []) with (@nil value). by rewrite flat_map_nil, app_nil_r. }
  unfold bind at 1. unfold EventEmitter.removeAllListeners. unfold bind at 1. unfold get.
  change (listeners st1 "removeListener") with (listeners st "removeListener").
  destruct (listeners st "removeListener") as [|h hs] eqn:Hrem.
  { unfold handlers in Hr. by rewrite Hrem in Hr. }
  destruct (remove_keys_pending fuel (map fst (_events st1)) st1 (proj1 Hs) Hs Hr)
    as (st2 & Hrun2 & Hs2 & Hpend2).
  destruct (removeAllListeners_of_self_pending fuel st2 Hs2) as (st3 & Hrun3 & Hpend3).
  unfold bind. rewrite Hrun2, Hrun3. eexists. split; [reflexivity|].
  cbn [pending set_events]. by rewrite Hpend3, Hpend2, Hpend1.
Qed.

Lemma X17_release_requests_reaching_gateway_witness :
  live example_subscribed ∧ plain_table example_subscribed ∧ truthy VUndefined = false ∧
  ∃ st', call 3 VReleaseCb [VUndefined] example_subscribed = Ok VUndefined st'
    ∧ pending st' = pending example_subscribed ++ [VUnsubscribeCb "newListener"].
Proof.
  split; [exact example_subscribed_live|]. split; [reflexivity|].
  split; [reflexivity|].
  exact (X17_release_requests_reaching_gateway 0 example_subscribed VUndefined
           example_subscribed_live eq_refl eq_refl).
Defined.

(** X18: [invoke] does not check that its callback is a function.  With a
    truthy callback that is not one, the request is sent as usual, with
    [callback2] as completion callback; a TypeError (whatever its message)
    comes only when the request completes, whether with an error or with a
    result, out of [callback2], and leaves the proxy as it was. *)
Theorem X18_callback_checked_late (fuel : nat) (st : state) (m : string)
    (fields : list (string * value)) (cb : value) :
  sane st → is_function cb = false → is_primitive cb = false →
  (∃ st', invoke (S fuel) (VStr m) (VObject fields) cb st = Ok tt st'
     ∧ rpc_emissions (log st') =
       rpc_emissions (log st) ++
       [Emit "_rpc" [VStr "invoke";
                     VObject [("operation", VStr m); ("operationParams", VObject fields)];
                     VInvokeCb cb]])
  ∧ (∀ error result st0, truthy error = true →
       ∃ msg, call (S (S fuel)) (VInvokeCb cb) [error; result] st0
              = Throw (TypeError msg) st0)
  ∧ (∀ error raw st0, truthy error = false →
       ∃ msg, call (S (S fuel)) (VInvokeCb cb) [error; VObject raw] st0
              = Throw (TypeError msg) st0).
Proof.
  intros Hs Hfn Hprim.
  assert (Htruthy : truthy cb = true) by (by destruct cb).
  split; [|split].
  - eexists. split; [by apply invoke_sane|].
    cbn [log grow]. rewrite rpc_app, rpc_deliver. unfold invoke_args.
    by rewrite Htruthy.
  - intros error result st0 He. rewrite call_S. unfold invokeCb. cbn [arg nth].
    rewrite He. destruct cb; try discriminate; by eexists.
  - intros error raw st0 He. rewrite call_S. unfold invokeCb. cbn [arg nth].
    rewrite He. unfold bind, get_member, ret.
    destruct cb; try discriminate; by eexists.
Qed.

Lemma X18_callback_checked_late_witness :
  sane example_proxy ∧ is_function (VObject []) = false ∧ is_primitive (VObject []) = false ∧
  (∃ st', invoke 1 (VStr "foo") (VObject [("a", VNum 1)]) (VObject []) example_proxy
          = Ok tt st'
     ∧ rpc_emissions (log st') =
       rpc_emissions (log example_proxy) ++
       [Emit "_rpc" [VStr "invoke";
                     VObject [("operation", VStr "foo");
                              ("operationParams", VObject [("a", VNum 1)])];
                     VInvokeCb (VObject [])]])
  ∧ ∃ msg,
      call 2 (VInvokeCb (VObject [])) [VNull; VObject [("value", VNum 42)]] example_proxy
      = Throw (TypeError msg) example_proxy.
Proof.
  split; [exact (live_sane _ example_proxy_live)|].
  split; [reflexivity|]. split; [reflexivity|].
  destruct (X18_callback_checked_late 0 example_proxy "foo" [("a", VNum 1)] (VObject [])
              (live_sane _ example_proxy_live) eq_refl eq_refl) as (Hsend & _ & Hlate).
  split; [exact Hsend|]. exact (Hlate VNull [("value", VNum 42)] example_proxy eq_refl).
Defined.
